(** * Counterweight fill solver ([calculateCounterweight])

    A shallow embedding of [src/App.tsx], lines 379-493 (the module
    [utils/calculator]), of the records of [src/types.ts] and of the
    state handlers of the form.

    The TypeScript type [number] is kept abstract behind the class
    [Number]: the solver is written once, against the operators the source
    uses ([+ - * /], the comparisons, [===], [Math.max], [Math.min],
    [Math.abs] and the numeric literals).  Two implementations are given:

    - [Binary64.number_float]: IEEE 754 binary64 with round to nearest
      even, which is what a JavaScript engine computes, bit for bit;
    - [Exact.number_xnum]: the same special values (NaN and the two
      infinities) around exact rational arithmetic, that is the solver
      without rounding error.

    Theorems that only follow the control flow are proved for every
    implementation of [Number], binary64 included.  Theorems that compare
    a computed quantity with a tolerance are proved on the exact instance,
    for inputs that are finite numbers ([calculateCounterweightExact]);
    concrete inputs are evaluated on both.

    The handlers of the form ([src/App.tsx], lines 38-86) and the blocks
    it shows ([materialSegments], lines 132-150) are embedded as functions
    on the state of the component.

    Layout: the numbers, the data model, the solver, the call on a heap of
    arrays, the measures of a result, the concrete inputs and the form
    come first; the theorems follow. *)

From stdpp Require Import base option list gmap strings pretty.
From Stdlib Require Import ZArith QArith Qabs Floats Sorted Lia Lqa.

Set Default Proof Using "Type".
#[local] Set Warnings "-inexact-float".

(** ** Numbers *)

Class Number (num : Type) := {
  (* literals of the source *)
  n_zero : num;              (* 0 *)
  n_thousand : num;          (* 1000 *)
  n_hundred : num;           (* 100 *)
  n_volTol : num;            (* 0.000001 *)
  n_weightTol : num;         (* 0.1 *)
  n_infinity : num;          (* Infinity, the value of Math.min() *)
  (* operators *)
  n_add : num → num → num;
  n_sub : num → num → num;
  n_mul : num → num → num;
  n_div : num → num → num;
  n_neg : num → num;         (* unary minus *)
  n_abs : num → num;         (* Math.abs *)
  n_max : num → num → num;   (* Math.max of two arguments *)
  n_min : num → num → num;   (* Math.min of two arguments *)
  n_lt : num → num → bool;   (* <  *)
  n_le : num → num → bool;   (* <= *)
  n_seq : num → num → bool   (* === *)
}.

Declare Scope js_scope.
Delimit Scope js_scope with js.
Infix "+" := n_add : js_scope.
Infix "-" := n_sub : js_scope.
Infix "*" := n_mul : js_scope.
Infix "/" := n_div : js_scope.
Notation "- x" := (n_neg x) : js_scope.
Infix "<" := n_lt : js_scope.
Infix "<=" := n_le : js_scope.
Infix "===" := n_seq (at level 70, no associativity) : js_scope.
(* [a > b] and [a >= b] are [b < a] and [b <= a], also on NaN *)
Notation "a > b" := (n_lt b a) : js_scope.
Notation "a >= b" := (n_le b a) : js_scope.

(** *** binary64 *)

Module Binary64.

Definition is_negzero (x : float) : bool :=
  match classify x with NZero => true | _ => false end.

(** [Math.max(a, b)]: NaN if either argument is NaN, and +0 is larger
    than -0. *)
Definition fmax (a b : float) : float :=
  if is_nan a then a
  else if is_nan b then b
  else if PrimFloat.ltb a b then b
  else if PrimFloat.ltb b a then a
  else if is_negzero a then b else a.

(** [Math.min(a, b)]. *)
Definition fmin (a b : float) : float :=
  if is_nan a then a
  else if is_nan b then b
  else if PrimFloat.ltb a b then a
  else if PrimFloat.ltb b a then b
  else if is_negzero b then b else a.

#[export] Instance number_float : Number float := {
  n_zero := 0%float;
  n_thousand := 1000%float;
  n_hundred := 100%float;
  n_volTol := 0.000001%float;
  n_weightTol := 0.1%float;
  n_infinity := infinity;
  n_add := PrimFloat.add;
  n_sub := PrimFloat.sub;
  n_mul := PrimFloat.mul;
  n_div := PrimFloat.div;
  n_neg := PrimFloat.opp;
  n_abs := PrimFloat.abs;
  n_max := fmax;
  n_min := fmin;
  n_lt := PrimFloat.ltb;
  n_le := PrimFloat.leb;
  n_seq := PrimFloat.eqb
}.

(** Zero or a finite non-zero number, on the specification side. *)
Definition SFfinite (x : spec_float) : bool :=
  match x with
  | S754_zero _ | S754_finite _ _ _ => true
  | _ => false
  end.

(** The mantissa of a shift record is not negative. *)
Definition nonneg (mrs : shr_record) : Prop := (0 <= shr_m mrs)%Z.

End Binary64.

(** *** exact arithmetic with the IEEE special values *)

Module Exact.

Inductive xnum : Type :=
| XNaN
| XNegInf
| XFin (q : Q)
| XPosInf.

Definition Qsign (q : Q) : comparison := (q ?= 0)%Q.

Definition xneg (a : xnum) : xnum :=
  match a with
  | XNaN => XNaN
  | XNegInf => XPosInf
  | XFin q => XFin (- q)
  | XPosInf => XNegInf
  end.

Definition xadd (a b : xnum) : xnum :=
  match a, b with
  | XNaN, _ | _, XNaN => XNaN
  | XPosInf, XNegInf | XNegInf, XPosInf => XNaN
  | XPosInf, _ | _, XPosInf => XPosInf
  | XNegInf, _ | _, XNegInf => XNegInf
  | XFin p, XFin q => XFin (p + q)
  end.

Definition xsub (a b : xnum) : xnum := xadd a (xneg b).

(** An infinity scaled by a number of the given sign. *)
Definition xscale (s : comparison) (inf : xnum) : xnum :=
  match s with
  | Eq => XNaN
  | Gt => inf
  | Lt => xneg inf
  end.

Definition xmul (a b : xnum) : xnum :=
  match a, b with
  | XNaN, _ | _, XNaN => XNaN
  | XFin p, XFin q => XFin (p * q)
  | XFin p, inf => xscale (Qsign p) inf
  | inf, XFin q => xscale (Qsign q) inf
  | XPosInf, XPosInf | XNegInf, XNegInf => XPosInf
  | _, _ => XNegInf
  end.

(** Zero has no sign here: a non-zero number divided by zero gets the
    sign of the numerator. *)
Definition xdiv (a b : xnum) : xnum :=
  match a, b with
  | XNaN, _ | _, XNaN => XNaN
  | XFin p, XFin q =>
      if Qeq_bool q 0 then xscale (Qsign p) XPosInf else XFin (p / q)
  | XFin _, _ => XFin 0
  | inf, XFin q =>
      match Qsign q with Lt => xneg inf | _ => inf end
  | _, _ => XNaN
  end.

Definition xabs (a : xnum) : xnum :=
  match a with
  | XNaN => XNaN
  | XFin q => XFin (Qabs q)
  | _ => XPosInf
  end.

Definition xle (a b : xnum) : bool :=
  match a, b with
  | XNaN, _ | _, XNaN => false
  | XNegInf, _ | _, XPosInf => true
  | XFin p, XFin q => Qle_bool p q
  | _, _ => false
  end.

Definition xlt (a b : xnum) : bool :=
  match a, b with
  | XNaN, _ | _, XNaN => false
  | _, _ => negb (xle b a)
  end.

Definition xseq (a b : xnum) : bool :=
  match a, b with
  | XNegInf, XNegInf | XPosInf, XPosInf => true
  | XFin p, XFin q => Qeq_bool p q
  | _, _ => false
  end.

Definition xmax (a b : xnum) : xnum :=
  match a, b with
  | XNaN, _ | _, XNaN => XNaN
  | _, _ => if xlt a b then b else a
  end.

Definition xmin (a b : xnum) : xnum :=
  match a, b with
  | XNaN, _ | _, XNaN => XNaN
  | _, _ => if xlt b a then b else a
  end.

#[export] Instance number_xnum : Number xnum := {
  n_zero := XFin 0;
  n_thousand := XFin 1000;
  n_hundred := XFin 100;
  n_volTol := XFin (1 # 1000000);
  n_weightTol := XFin (1 # 10);
  n_infinity := XPosInf;
  n_add := xadd;
  n_sub := xsub;
  n_mul := xmul;
  n_div := xdiv;
  n_neg := xneg;
  n_abs := xabs;
  n_max := xmax;
  n_min := xmin;
  n_lt := xlt;
  n_le := xle;
  n_seq := xseq
}.

End Exact.

(** ** Data model ([src/types.ts]) *)

Section DataModel.
Context {num : Type}.

Record Material := {
  matId : string;        (* id *)
  name : string;
  density : num;         (* kg/m3 *)
  priority : num
}.

Record Dimensions := {
  width : num;           (* mm *)
  depth : num;           (* mm *)
  height : num           (* mm *)
}.

(** An entry of [CalculationResult.materials]. *)
Record Allocation := {
  material : Material;
  volume : num;          (* m3 *)
  weight : num;          (* kg *)
  percentage : num       (* % *)
}.

(** The [message] of a result.  The source builds a Czech sentence; the
    constructors keep which sentence it is and the values printed in it
    (the names, and the bounds that [toFixed(1)] prints). *)
Inductive Message :=
| MsgFrameExceedsTarget
    (* "Cilova vaha je nizsi nebo rovna vaze samotneho ramu." *)
| MsgPair (name1 name2 : string)
    (* `Nalezeno reseni kombinaci: ${m1.name} a ${m2.name}` *)
| MsgSingle (name1 : string)
    (* `Nalezeno reseni: 100% ${m.name}` *)
| MsgFail (tooLow tooHigh : option num).
    (* "Nelze dosahnout cilove vahy ..." followed by the minimum when the
       target is too low and by the maximum when it is too high *)

Record CalculationResult := {
  totalVolume : num;     (* m3 *)
  netTargetWeight : num; (* kg *)
  materials : list Allocation;
  isFeasible : bool;
  message : Message
}.

End DataModel.

Arguments Material : clear implicits.
Arguments Dimensions : clear implicits.
Arguments Allocation : clear implicits.
Arguments Message : clear implicits.
Arguments CalculationResult : clear implicits.

(** Reading a property of [undefined] throws a TypeError: the only way the
    solver could fail to return. *)
Inductive Completion (A : Type) : Type :=
| Normal (a : A)
| TypeError.
Arguments Normal {A} a.
Arguments TypeError {A}.

(** ** The solver ([src/App.tsx], 381-493) *)

Section Solver.
Context {num : Type} `{Number num}.
Local Open Scope js_scope.

(** The comparator of line 404, [(a, b) => a.priority - b.priority]. *)
Definition comparePriority (a b : Material num) : num :=
  priority a - priority b.

(** [Array.prototype.sort] is stable, and a comparator result that is
    not a positive number (NaN included) leaves the two elements in their
    order. *)
Fixpoint insertByPriority (x : Material num) (l : list (Material num))
  : list (Material num) :=
  match l with
  | [] => [x]
  | y :: l' =>
      if comparePriority x y > n_zero then y :: insertByPriority x l'
      else x :: l
  end.

Fixpoint sortByPriority (l : list (Material num)) : list (Material num) :=
  match l with
  | [] => []
  | x :: l' => insertByPriority x (sortByPriority l')
  end.

Section Search.
Variables volM3 netWeight : num.

(** The body of the pair loop, lines 413-451: [Some r] when the body
    returns [r], [None] when the loop goes on. *)
Definition pairBody (m1 m2 : Material num)
  : option (CalculationResult num) :=
  let d1 := density m1 in
  let d2 := density m2 in
  if d1 === d2 then None
  else
    let v1 := (netWeight - volM3 * d2) / (d1 - d2) in
    let v2 := volM3 - v1 in
    if (v1 >= - n_volTol) && (v2 >= - n_volTol)
       && (v1 <= volM3 + n_volTol)
    then
      let actualV1 := n_max n_zero (n_min volM3 v1) in
      let actualV2 := n_max n_zero (n_min volM3 v2) in
      Some {|
        totalVolume := volM3;
        netTargetWeight := netWeight;
        isFeasible := true;
        message := MsgPair (name m1) (name m2);
        materials := [
          {| material := m1;
             volume := actualV1;
             weight := actualV1 * d1;
             percentage := (actualV1 / volM3) * n_hundred |};
          {| material := m2;
             volume := actualV2;
             weight := actualV2 * d2;
             percentage := (actualV2 / volM3) * n_hundred |}
        ]
      |}
    else None.

(** [for (let i = 0; i < sortedMaterials.length - 1; i++)], with [todo]
    the number of iterations that remain and [i] the index. *)
Fixpoint pairIter (sortedMaterials : list (Material num)) (todo i : nat)
  : Completion (option (CalculationResult num)) :=
  match todo with
  | O => Normal None
  | S todo' =>
      match sortedMaterials !! i, sortedMaterials !! (i + 1)%nat with
      | Some m1, Some m2 =>
          match pairBody m1 m2 with
          | Some r => Normal (Some r)
          | None => pairIter sortedMaterials todo' (S i)
          end
      | _, _ => TypeError
      end
  end.

Definition pairLoop (sortedMaterials : list (Material num))
  : Completion (option (CalculationResult num)) :=
  pairIter sortedMaterials
    (Z.to_nat (Z.of_nat (length sortedMaterials) - 1)) 0.

(** The body of the single-material loop, lines 456-472. *)
Definition singleBody (m : Material num)
  : option (CalculationResult num) :=
  let theoreticalWeight := volM3 * density m in
  if n_abs (theoreticalWeight - netWeight) < n_weightTol then
    Some {|
      totalVolume := volM3;
      netTargetWeight := netWeight;
      isFeasible := true;
      message := MsgSingle (name m);
      materials := [
        {| material := m;
           volume := volM3;
           weight := theoreticalWeight;
           percentage := n_hundred |}
      ]
    |}
  else None.

(** [for (const m of sortedMaterials)]. *)
Fixpoint singleLoop (sortedMaterials : list (Material num))
  : option (CalculationResult num) :=
  match sortedMaterials with
  | [] => None
  | m :: rest =>
      match singleBody m with
      | Some r => Some r
      | None => singleLoop rest
      end
  end.

(** [Math.min(...xs)] and [Math.max(...xs)]; without arguments they are
    [Infinity] and [-Infinity]. *)
Definition mathMin (xs : list num) : num := foldl n_min n_infinity xs.
Definition mathMax (xs : list num) : num := foldl n_max (- n_infinity) xs.

(** Lines 475-492. *)
Definition diagnose (materials : list (Material num))
  : CalculationResult num :=
  let minDensity := mathMin (map density materials) in
  let maxDensity := mathMax (map density materials) in
  let minWeight := volM3 * minDensity in
  let maxWeight := volM3 * maxDensity in
  {| totalVolume := volM3;
     netTargetWeight := netWeight;
     materials := [];
     isFeasible := false;
     message :=
       MsgFail (if netWeight < minWeight then Some minWeight else None)
               (if netWeight > maxWeight then Some maxWeight else None)
  |}.

(** Lines 412-492, after the sort. *)
Definition search (materials sortedMaterials : list (Material num))
  : Completion (CalculationResult num) :=
  match pairLoop sortedMaterials with
  | TypeError => TypeError
  | Normal (Some r) => Normal r
  | Normal None =>
      match singleLoop sortedMaterials with
      | Some r => Normal r
      | None => Normal (diagnose materials)
      end
  end.

End Search.

Definition volumeOf (dimensions : Dimensions num) : num :=
  (width dimensions / n_thousand) * (depth dimensions / n_thousand)
  * (height dimensions / n_thousand).

Definition frameResult (volM3 netWeight : num) : CalculationResult num :=
  {| totalVolume := volM3;
     netTargetWeight := netWeight;
     materials := [];
     isFeasible := false;
     message := MsgFrameExceedsTarget |}.

Definition calculateCounterweight (dimensions : Dimensions num)
    (targetTotalWeight frameWeight : num)
    (materials : list (Material num))
  : Completion (CalculationResult num) :=
  let volM3 := volumeOf dimensions in
  let netWeight := targetTotalWeight - frameWeight in
  if netWeight <= n_zero then Normal (frameResult volM3 netWeight)
  else
    let sortedMaterials := sortByPriority materials in
    search volM3 netWeight materials sortedMaterials.

End Solver.

(** ** The pair loop as a scan of the list

    The same loop by recursion on the sorted list, to reason about it:
    the first adjacent pair whose body returns decides.  [pairLoop_scan]
    below proves that it is the loop of the source. *)

Section PairScan.
Context {num : Type} `{Number num}.

Fixpoint pairScan (volM3 netWeight : num) (l : list (Material num))
  : option (CalculationResult num) :=
  match l with
  | m1 :: ((m2 :: _) as rest) =>
      match pairBody volM3 netWeight m1 m2 with
      | Some r => Some r
      | None => pairScan volM3 netWeight rest
      end
  | _ => None
  end.

End PairScan.

(** ** The call on a heap of arrays

    [materials] is a reference to an array.  Line 404 spreads it into a
    new array and sorts that one in place; nothing else is written.  The
    result is an object literal whose [materials] array is a literal too,
    so it is a value here.  The elements are never assigned to, which is
    why they are kept as values. *)

Section OnHeap.
Context {num : Type} `{Number num}.
Local Open Scope js_scope.

Definition loc := positive.

Definition calculateCounterweightAt (dimensions : Dimensions num)
    (targetTotalWeight frameWeight : num) (materials : loc)
    (h : gmap loc (list (Material num)))
  : Completion (CalculationResult num) * gmap loc (list (Material num)) :=
  let volM3 := volumeOf dimensions in
  let netWeight := targetTotalWeight - frameWeight in
  if netWeight <= n_zero then (Normal (frameResult volM3 netWeight), h)
  else
    match h !! materials with
    | None => (TypeError, h)
    | Some elems =>
        (* [...materials] *)
        let copy := fresh (dom h) in
        let h1 := <[copy := elems]> h in
        (* .sort(...) reorders its receiver and returns it *)
        let h2 := alter sortByPriority copy h1 in
        match h2 !! copy, h2 !! materials with
        | Some sortedMaterials, Some elems' =>
            (search volM3 netWeight elems' sortedMaterials, h2)
        | _, _ => (TypeError, h2)
        end
    end.

End OnHeap.

(** ** Measures of a result *)

Section Measures.
Context {num : Type} `{Number num}.
Local Open Scope js_scope.

Definition total (xs : list num) : num := foldl n_add n_zero xs.

Definition sumWeights (r : CalculationResult num) : num :=
  total (map weight (materials r)).
Definition sumVolumes (r : CalculationResult num) : num :=
  total (map volume (materials r)).
Definition sumPercentages (r : CalculationResult num) : num :=
  total (map percentage (materials r)).

(** [|x - y| <= tol] *)
Definition within (x y tol : num) : bool := n_abs (x - y) <= tol.

(** The weight tolerance that goes with a result: 0.1 kg for one entry,
    the volume tolerance times the two densities for two entries. *)
Definition weightTolerance (r : CalculationResult num) : num :=
  match materials r with
  | [a1; a2] =>
      n_volTol * (n_abs (density (material a1))
                  + n_abs (density (material a2)))
  | _ => n_weightTol
  end.

End Measures.

(** ** Finite inputs in exact arithmetic *)

Module ExactSolver.
Import Exact.

Definition liftMaterial (m : Material Q) : Material xnum :=
  {| matId := matId m;
     name := name m;
     density := XFin (density m);
     priority := XFin (priority m) |}.

Definition liftDimensions (d : Dimensions Q) : Dimensions xnum :=
  {| width := XFin (width d);
     depth := XFin (depth d);
     height := XFin (height d) |}.

(** The solver on finite numbers, computed without rounding. *)
Definition calculateCounterweightExact (dimensions : Dimensions Q)
    (targetTotalWeight frameWeight : Q) (mats : list (Material Q))
  : Completion (CalculationResult xnum) :=
  calculateCounterweight (liftDimensions dimensions)
    (XFin targetTotalWeight) (XFin frameWeight) (map liftMaterial mats).

(** The volume of the cavity in m3. *)
Definition volumeQ (d : Dimensions Q) : Q :=
  (width d / 1000) * (depth d / 1000) * (height d / 1000).

(** 1e-4, the tolerance on the sum of the percentages. *)
Definition percentTol : xnum := XFin (1 # 10000).

Definition finiteDensity (m : Material xnum) : Prop :=
  ∃ d, density m = XFin d.

(** 0.000001 as a rational. *)
Definition volTolQ : Q := 1 # 1000000.

(** [Math.max(0, Math.min(V, v))] on finite numbers. *)
Definition clampQ (V v : Q) : Q :=
  let lo := if negb (Qle_bool V v) then v else V in
  if negb (Qle_bool lo 0) then lo else 0.

(** The materials are listed in ascending order of priority. *)
Definition priorityLe (a b : Material xnum) : Prop :=
  xle (priority a) (priority b) = true.

Definition finitePriority (m : Material xnum) : Prop :=
  ∃ p, priority m = XFin p.

End ExactSolver.

(** ** Concrete inputs *)

Module Scenarios.
Import Binary64 Exact ExactSolver.

(** The defaults of the form, [src/App.tsx] lines 15-17 and 26-29. *)
Definition defaultDims : Dimensions Q :=
  {| width := 600; depth := 100; height := 1800 |}.
Definition beton : Material Q :=
  {| matId := "1"; name := "Beton"; density := 2400; priority := 1 |}.
Definition ocel : Material Q :=
  {| matId := "2"; name := "Ocel"; density := 7850; priority := 2 |}.

Definition defaultDimsF : Dimensions float :=
  {| width := 600%float; depth := 100%float; height := 1800%float |}.
Definition betonF : Material float :=
  {| matId := "1"; name := "Beton";
     density := 2400%float; priority := 1%float |}.
Definition ocelF : Material float :=
  {| matId := "2"; name := "Ocel";
     density := 7850%float; priority := 2%float |}.

(** A lighter material, put before the two. *)
Definition drevoF : Material float :=
  {| matId := "3"; name := "Drevo";
     density := 600%float; priority := 0%float |}.

(** A cavity of width 0. *)
Definition flatDims : Dimensions Q :=
  {| width := 0; depth := 100; height := 1800 |}.
Definition flatDimsF : Dimensions float :=
  {| width := 0%float; depth := 100%float; height := 1800%float |}.

(** A cavity of 1 m3 and two materials of 1000 and 2000 kg/m3. *)
Definition cubeDimsF : Dimensions float :=
  {| width := 1000%float; depth := 1000%float; height := 1000%float |}.
Definition lightF : Material float :=
  {| matId := "a"; name := "A";
     density := 1000%float; priority := 1%float |}.
Definition heavyF : Material float :=
  {| matId := "b"; name := "B";
     density := 2000%float; priority := 2%float |}.

(** What binary64 computes for the default input. *)
Definition betonEntryF : Allocation float :=
  {| material := betonF;
     volume := 0.026935779816513752%float;
     weight := 64.645871559633008%float;
     percentage := 24.940536867142363%float |}.
Definition ocelEntryF : Allocation float :=
  {| material := ocelF;
     volume := 0.081064220183486246%float;
     weight := 636.35412844036705%float;
     percentage := 75.059463132857644%float |}.
Definition defaultResultF : CalculationResult float :=
  {| totalVolume := 0.108%float;
     netTargetWeight := 701%float;
     isFeasible := true;
     message := MsgPair "Beton" "Ocel";
     materials := [betonEntryF; ocelEntryF] |}.

(** A heap whose only array lists Ocel before Beton. *)
Definition unsortedHeap : gmap loc (list (Material float)) :=
  {[ 1%positive := [ocelF; betonF] ]}.

End Scenarios.

(** ** The form ([src/App.tsx], 8-150): its state and its handlers

    The component keeps [dims], [targetWeight], [frameWeight], [materials]
    and [unitThicknesses] in state.  A handler is modelled as the function
    from the state it reads to the state it sets; a handler that returns
    without setting anything gives the state back.  [Date.now()],
    [parseFloat] and [String.prototype.toLowerCase] are taken as
    parameters. *)

(** What the form needs of [number] beyond the solver. *)
Class FormNumber (num : Type) := {
  n_one : num;             (* 1 *)
  n_fifty : num;           (* 50 *)
  n_steel : num;           (* 7850 *)
  n_billion : num;         (* 1000000000 *)
  n_ofIndex : nat → num    (* an array index, or a length, as a number *)
}.

Module Binary64Form.

#[export] Instance form_float : FormNumber float := {
  n_one := 1%float;
  n_fifty := 50%float;
  n_steel := 7850%float;
  n_billion := 1000000000%float;
  n_ofIndex := λ n, PrimFloat.of_uint63 (Uint63.of_Z (Z.of_nat n))
}.

End Binary64Form.

Module ExactForm.
Import Exact.

#[export] Instance form_xnum : FormNumber xnum := {
  n_one := XFin 1;
  n_fifty := XFin 50;
  n_steel := XFin 7850;
  n_billion := XFin 1000000000;
  n_ofIndex := λ n, XFin (inject_Z (Z.of_nat n))
}.

End ExactForm.

Inductive Direction := Up | Down.             (* 'up' | 'down' *)

Inductive DimKey := Width | Depth | Height.   (* keyof Dimensions *)

Section Form.
Context {num : Type} `{Number num} `{FormNumber num}.
Local Open Scope js_scope.

(** [field] and [val] of [updateMaterial], with [val] of the type of the
    field. *)
Inductive FieldUpdate :=
| SetId (val : string)
| SetName (val : string)
| SetDensity (val : num)
| SetPriority (val : num).

(** A number is falsy when it is NaN, +0 or -0. *)
Definition truthy (x : num) : bool := (x === x) && negb (x === n_zero).

(** [x || d] on numbers. *)
Definition orElse (x d : num) : num := if truthy x then x else d.

(** [{ ...m, id: v }], [{ ...m, name: v }], [{ ...m, density: v }] and
    [{ ...m, priority: v }]. *)
Definition withId (m : Material num) (v : string) : Material num :=
  {| matId := v; name := name m; density := density m;
     priority := priority m |}.
Definition withName (m : Material num) (v : string) : Material num :=
  {| matId := matId m; name := v; density := density m;
     priority := priority m |}.
Definition withDensity (m : Material num) (v : num) : Material num :=
  {| matId := matId m; name := name m; density := v;
     priority := priority m |}.
Definition withPriority (m : Material num) (v : num) : Material num :=
  {| matId := matId m; name := name m; density := density m;
     priority := v |}.

(** [.map((m, idx) => ({ ...m, priority: idx + 1 }))], lines 56 and 85. *)
Definition renumber (l : list (Material num)) : list (Material num) :=
  imap (λ idx m, withPriority m (n_ofIndex idx + n_one)) l.

(** Lines 42-51, with [newId] the string of [Date.now()]. *)
Definition addMaterial (newId : string) (materials : list (Material num))
    (unitThicknesses : gmap string num)
  : list (Material num) * gmap string num :=
  (materials ++ [ {| matId := newId;
                     name := "Materiál " +:+ pretty (length materials + 1)%nat;
                     density := n_thousand;
                     priority := n_ofIndex (length materials) + n_one |} ],
   <[newId := n_fifty]> unitThicknesses).

(** Lines 53-57. *)
Definition removeMaterial (id : string) (materials : list (Material num))
  : list (Material num) :=
  if (length materials <=? 2)%nat then materials
  else
    let filtered := filter (λ m, matId m ≠ id) materials in
    renumber filtered.

(** Lines 59-69. *)
Definition updateMaterial (toLowerCase : string → string) (id : string)
    (update : FieldUpdate) (materials : list (Material num))
  : list (Material num) :=
  map (λ m,
         if String.eqb (matId m) id then
           match update with
           | SetDensity val =>
               if String.eqb (toLowerCase (name m)) "ocel"
               then withDensity m n_steel
               else withDensity m val
           | SetId val => withId m val
           | SetName val => withName m val
           | SetPriority val => withPriority m val
           end
         else m)
      materials.

(** Lines 38-40, with [parsed] the value of [parseFloat(val)]. *)
Definition updateDim (key : DimKey) (parsed : num) (prev : Dimensions num)
  : Dimensions num :=
  let v := orElse parsed n_zero in
  match key with
  | Width => {| width := v; depth := depth prev; height := height prev |}
  | Depth => {| width := width prev; depth := v; height := height prev |}
  | Height => {| width := width prev; depth := depth prev; height := v |}
  end.

(** Lines 71-74, with [parsed] the value of [parseFloat(val)]. *)
Definition updateUnitThickness (id : string) (parsed : num)
    (prev : gmap string num) : gmap string num :=
  <[id := orElse parsed n_zero]> prev.

(** Lines 76-86.  [index] is the index of an element: the one caller,
    line 219, passes the index that [materials.map] gives.  For any other
    index the array would get [undefined] for an element, which is no
    [Material]: that case is [None]. *)
Definition movePriority (index : nat) (direction : Direction)
    (materials : list (Material num)) : option (list (Material num)) :=
  let newMaterials := materials in
  let targetIndex : Z :=
    match direction with
    | Up => Z.of_nat index - 1
    | Down => Z.of_nat index + 1
    end%Z in
  if (targetIndex <? 0)%Z || (Z.of_nat (length newMaterials) <=? targetIndex)%Z
  then Some materials
  else
    match newMaterials !! index, newMaterials !! Z.to_nat targetIndex with
    | Some temp, Some other =>
        let newMaterials := <[index := other]> newMaterials in
        let newMaterials := <[Z.to_nat targetIndex := temp]> newMaterials in
        Some (renumber newMaterials)
    | _, _ => None
    end.

(** An element of [materialSegments], lines 142-148: the entry of the
    result with the block it makes. *)
Record Segment := {
  allocation : Allocation num;   (* ...m *)
  blockW : num;                  (* blockDims.w *)
  blockD : num;                  (* blockDims.d *)
  blockH : num;                  (* blockDims.h *)
  unitThickness : num;
  itemCount : num;
  unitWeight : num
}.

(** [unitThicknesses[id] || 1], line 137: a missing key reads as
    [undefined].  The ids of the form are the strings of numbers (['1'],
    ['2'] and those of [Date.now()]), so that no id names a property
    which an object inherits. *)
Definition thicknessOf (unitThicknesses : gmap string num) (id : string)
  : num :=
  match unitThicknesses !! id with
  | Some x => orElse x n_one
  | None => n_one
  end.

(** Lines 132-150. *)
Definition materialSegments (result : CalculationResult num)
    (dims : Dimensions num) (unitThicknesses : gmap string num)
  : list Segment :=
  if negb (isFeasible result) then []
  else
    let areaM2 := (width dims / n_thousand) * (depth dims / n_thousand) in
    map (λ m,
           let segmentHeightMM := (volume m / areaM2) * n_thousand in
           let t := thicknessOf unitThicknesses (matId (material m)) in
           let count := if t > n_zero then segmentHeightMM / t
                        else n_zero in
           let uWeight :=
             (width dims * depth dims * t * density (material m))
             / n_billion in
           {| allocation := m;
              blockW := width dims;
              blockD := depth dims;
              blockH := segmentHeightMM;
              unitThickness := t;
              itemCount := count;
              unitWeight := uWeight |})
        (materials result).

(** The priorities are 1, 2, ... in the order of the list. *)
Definition wellNumbered (l : list (Material num)) : Prop :=
  ∀ i m, l !! i = Some m → priority m = n_ofIndex i + n_one.

(** A material without its priority. *)
Definition dropPriority (m : Material num) : string * string * num :=
  (matId m, name m, density m).

(** Every material whose lower-cased name is "ocel" has the density of
    steel. *)
Definition steelLocked (toLowerCase : string → string)
    (l : list (Material num)) : Prop :=
  ∀ m, m ∈ l → toLowerCase (name m) = "ocel" → density m = n_steel.

(** [dims[key]]. *)
Definition dimOf (key : DimKey) (dims : Dimensions num) : num :=
  match key with
  | Width => width dims
  | Depth => depth dims
  | Height => height dims
  end.

End Form.

Arguments FieldUpdate : clear implicits.
Arguments Segment : clear implicits.

(** Concrete states of the form. *)

Module FormScenarios.
Import Binary64 Exact ExactSolver Binary64Form ExactForm Scenarios.

(** The default materials, line 26-29, and a third one as [addMaterial]
    makes it. *)
Definition defaultMaterialsF : list (Material float) := [betonF; ocelF].
Definition thirdF : Material float :=
  {| matId := "1700000000000"; name := "Materiál 3";
     density := 1000%float; priority := 3%float |}.
Definition threeMaterialsF : list (Material float) :=
  [betonF; ocelF; thirdF].
Definition defaultMaterialsX : list (Material xnum) :=
  map liftMaterial [beton; ocel].

(** The default thicknesses, lines 20-23. *)
Definition defaultThicknessesF : gmap string float :=
  {[ "1" := 100%float; "2" := 10%float ]}.
Definition defaultThicknessesX : gmap string xnum :=
  {[ "1" := XFin 100; "2" := XFin 10 ]}.

(** [toLowerCase] on the letters A to Z. *)
Definition lowerAscii (c : Ascii.ascii) : Ascii.ascii :=
  let n := Ascii.nat_of_ascii c in
  if (65 <=? n)%nat && (n <=? 90)%nat then Ascii.ascii_of_nat (n + 32)
  else c.
Fixpoint toLowerAscii (s : string) : string :=
  match s with
  | EmptyString => EmptyString
  | String c rest => String (lowerAscii c) (toLowerAscii rest)
  end.

(** A cavity of 1 m3 filled by the lighter of two materials alone: the
    net weight is 0.05 kg below its full-cavity weight. *)
Definition lightOnlyTargetF : float := 999.95%float.

End FormScenarios.

(** ** Control flow, for every implementation of [Number] *)

Section ControlFlow.
Context {num : Type} `{Number num}.
Local Open Scope js_scope.

Implicit Types (netWeight : num) (m : Material num).
Implicit Types (l : list (Material num)) (r : CalculationResult num).

Lemma pairIter_scan (volM3 : num) netWeight l todo i :
  (todo + i + 1 = length l)%nat →
  pairIter volM3 netWeight l todo i
  = Normal (pairScan volM3 netWeight (drop i l)).
Proof.
  revert i. induction todo as [|todo IH]; intros i Hlen; simpl.
  - destruct (lookup_lt_is_Some_2 l i) as [m Hm]; [lia|].
    rewrite (drop_S _ _ _ Hm), drop_ge by lia. done.
  - destruct (lookup_lt_is_Some_2 l i) as [m1 Hm1]; [lia|].
    destruct (lookup_lt_is_Some_2 l (i + 1)) as [m2 Hm2]; [lia|].
    rewrite Hm1, Hm2, (drop_S _ _ _ Hm1).
    replace (i + 1)%nat with (S i) in Hm2 by lia.
    rewrite (drop_S _ _ _ Hm2). simpl.
    destruct (pairBody volM3 netWeight m1 m2); [done|].
    rewrite IH by lia. by rewrite (drop_S _ _ _ Hm2).
Qed.

(** The index never leaves the array: the loop does not throw. *)
Lemma pairLoop_scan (volM3 : num) netWeight l :
  pairLoop volM3 netWeight l = Normal (pairScan volM3 netWeight l).
Proof.
  unfold pairLoop. destruct l as [|m l]; [done|].
  rewrite (pairIter_scan _ _ _ _ 0); [done|]. simpl length. lia.
Qed.

Lemma search_scan (volM3 : num) netWeight materials l :
  search volM3 netWeight materials l
  = Normal
      (match pairScan volM3 netWeight l with
       | Some r => r
       | None =>
           match singleLoop volM3 netWeight l with
           | Some r => r
           | None => diagnose volM3 netWeight materials
           end
       end).
Proof.
  unfold search. rewrite pairLoop_scan.
  destruct (pairScan _ _ _); [done|]. by destruct (singleLoop _ _ _).
Qed.

(** *** what the two bodies return *)

Lemma pairBody_Some (volM3 : num) netWeight m1 m2 r :
  pairBody volM3 netWeight m1 m2 = Some r →
  (density m1 === density m2) = false
  ∧ isFeasible r = true
  ∧ totalVolume r = volM3
  ∧ netTargetWeight r = netWeight
  ∧ ∃ a1 a2, materials r = [a1; a2]
      ∧ material a1 = m1 ∧ material a2 = m2.
Proof.
  unfold pairBody. destruct (density m1 === density m2); [done|].
  match goal with |- context [if ?c then _ else _] => destruct c end;
    [|done].
  intros [= <-]. simpl. repeat split; eauto.
Qed.

Lemma singleBody_Some (volM3 : num) netWeight m r :
  singleBody volM3 netWeight m = Some r →
  (n_abs (volM3 * density m - netWeight) < n_weightTol) = true
  ∧ r = {| totalVolume := volM3;
           netTargetWeight := netWeight;
           isFeasible := true;
           message := MsgSingle (name m);
           materials := [ {| material := m; volume := volM3;
                             weight := volM3 * density m;
                             percentage := n_hundred |} ] |}.
Proof.
  unfold singleBody.
  destruct (n_abs (volM3 * density m - netWeight) < n_weightTol);
    [|done].
  by intros [= <-].
Qed.

Lemma pairScan_Some (volM3 : num) netWeight l r :
  pairScan volM3 netWeight l = Some r →
  ∃ i m1 m2, l !! i = Some m1 ∧ l !! S i = Some m2
    ∧ pairBody volM3 netWeight m1 m2 = Some r
    ∧ ∀ j a b, (j < i)%nat → l !! j = Some a → l !! S j = Some b →
        pairBody volM3 netWeight a b = None.
Proof.
  induction l as [|m1 [|m2 rest] IH]; simpl; try done.
  destruct (pairBody volM3 netWeight m1 m2) as [r'|] eqn:Hb.
  - intros [= ->]. exists 0%nat, m1, m2. repeat split; try done.
    intros; lia.
  - intros Hs. destruct (IH Hs) as (i & a & b & Ha & Hb' & Hr & Hmin).
    exists (S i), a, b. repeat split; try done.
    intros [|j] x y Hj Hx Hy.
    + simpl in Hx, Hy. by simplify_eq.
    + apply (Hmin j x y); [lia|done..].
Qed.

Lemma singleLoop_Some (volM3 : num) netWeight l r :
  singleLoop volM3 netWeight l = Some r →
  ∃ m, m ∈ l ∧ singleBody volM3 netWeight m = Some r.
Proof.
  induction l as [|m l IH]; simpl; [done|].
  destruct (singleBody volM3 netWeight m) as [r'|] eqn:Hb.
  - intros [= ->]. exists m. split; [left|done].
  - intros Hs. destruct (IH Hs) as (m' & Hin & Hm').
    exists m'. split; [by right|done].
Qed.

(** *** the sort keeps the elements *)

Lemma insertByPriority_Permutation m l :
  insertByPriority m l ≡ₚ m :: l.
Proof.
  induction l as [|y l IH]; simpl; [done|].
  destruct (comparePriority m y > n_zero); [|done].
  rewrite IH. apply Permutation_swap.
Qed.

Lemma sortByPriority_Permutation l : sortByPriority l ≡ₚ l.
Proof.
  induction l as [|m l IH]; simpl; [done|].
  by rewrite insertByPriority_Permutation, IH.
Qed.

End ControlFlow.

Section ControlFlowClaims.
Context {num : Type} `{Number num}.
Local Open Scope js_scope.

Implicit Types (netWeight : num) (m : Material num).
Implicit Types (l : list (Material num)) (r : CalculationResult num).

Lemma pairBody_equal_density (volM3 : num) netWeight m1 m2 :
  (density m1 === density m2) = true →
  pairBody volM3 netWeight m1 m2 = None.
Proof. unfold pairBody. by intros ->. Qed.

Lemma pairScan_first (volM3 : num) netWeight l i m1 m2 r :
  l !! i = Some m1 → l !! S i = Some m2 →
  pairBody volM3 netWeight m1 m2 = Some r →
  (∀ j a b, (j < i)%nat → l !! j = Some a → l !! S j = Some b →
     pairBody volM3 netWeight a b = None) →
  pairScan volM3 netWeight l = Some r.
Proof.
  revert l. induction i as [|i IH]; intros [|x [|y rest]] H1 H2 Hb Hmin;
    simplify_eq/=.
  - by rewrite Hb.
  - rewrite (Hmin 0%nat x y) by (done || lia).
    apply (IH (y :: rest)); try done.
    intros j a b Hj Ha Hb'. apply (Hmin (S j) a b); [lia|done..].
Qed.

(** The shape of every result. *)
Lemma calculateCounterweight_cases dimensions
    (targetTotalWeight frameWeight : num) mats :
  let volM3 := volumeOf dimensions in
  let netWeight := targetTotalWeight - frameWeight in
  let l := sortByPriority mats in
  (netWeight <= n_zero) = true
  ∧ calculateCounterweight dimensions targetTotalWeight frameWeight
      mats = Normal (frameResult volM3 netWeight)
  ∨ (netWeight <= n_zero) = false
    ∧ ((∃ r, pairScan volM3 netWeight l = Some r
          ∧ calculateCounterweight dimensions targetTotalWeight frameWeight
              mats = Normal r)
       ∨ (∃ r, pairScan volM3 netWeight l = None
            ∧ singleLoop volM3 netWeight l = Some r
            ∧ calculateCounterweight dimensions targetTotalWeight
                frameWeight mats = Normal r)
       ∨ (pairScan volM3 netWeight l = None
          ∧ singleLoop volM3 netWeight l = None
          ∧ calculateCounterweight dimensions targetTotalWeight frameWeight
              mats = Normal (diagnose volM3 netWeight mats))).
Proof.
  intros volM3 netWeight l. unfold calculateCounterweight.
  fold volM3 netWeight l.
  destruct (netWeight <= n_zero); [left; done | right; split; [done|]].
  rewrite search_scan.
  destruct (pairScan volM3 netWeight l) as [r|]; [left; eauto|right].
  destruct (singleLoop volM3 netWeight l) as [r|]; [left; eauto|right].
  done.
Qed.

(** C6: a pair of adjacent materials whose densities are [===] makes the
    body of the pair loop go on to the next pair, and every result with
    two entries comes from two materials, adjacent in the sorted list,
    whose densities are not [===]. *)
Theorem equal_density_pair_is_skipped dimensions
    (targetTotalWeight frameWeight : num) mats :
  (∀ m1 m2, (density m1 === density m2) = true →
     pairBody (volumeOf dimensions) (targetTotalWeight - frameWeight)
       m1 m2 = None)
  ∧ ∀ r a1 a2,
      calculateCounterweight dimensions targetTotalWeight frameWeight
        mats = Normal r →
      materials r = [a1; a2] →
      (density (material a1) === density (material a2)) = false
      ∧ ∃ i, sortByPriority mats !! i = Some (material a1)
           ∧ sortByPriority mats !! S i = Some (material a2).
Proof.
  split; [intros; by apply pairBody_equal_density|].
  intros r a1 a2 Hr Hm.
  destruct (calculateCounterweight_cases dimensions targetTotalWeight
              frameWeight mats)
    as [[_ E]|[_ [(r' & Hp & E)|[(r' & _ & Hs & E)|(_ & _ & E)]]]];
    rewrite E in Hr; simplify_eq.
  - apply pairScan_Some in Hp as (i & m1 & m2 & H1 & H2 & Hb & _).
    apply pairBody_Some in Hb
      as (Hd & _ & _ & _ & b1 & b2 & Hm' & <- & <-).
    rewrite Hm in Hm'. simplify_eq. eauto.
  - apply singleLoop_Some in Hs as (m & _ & Hb).
    apply singleBody_Some in Hb as [_ ->]. done.
Qed.

(** C7: when the pair at index [i] of the materials sorted by priority
    passes the test of the pair loop and no pair before it does, the
    call returns what the body returns for that pair: a feasible result
    whose two entries are for [m1] and [m2], in that order.  The
    materials after index [i + 1] have no part in it: any other list
    whose sorted form starts with the same [i + 2] materials gives the
    same result. *)
Theorem first_accepted_pair_wins dimensions
    (targetTotalWeight frameWeight : num) mats i m1 m2 r :
  (targetTotalWeight - frameWeight <= n_zero) = false →
  sortByPriority mats !! i = Some m1 →
  sortByPriority mats !! S i = Some m2 →
  pairBody (volumeOf dimensions) (targetTotalWeight - frameWeight) m1 m2
    = Some r →
  (∀ j a b, (j < i)%nat →
     sortByPriority mats !! j = Some a →
     sortByPriority mats !! S j = Some b →
     pairBody (volumeOf dimensions) (targetTotalWeight - frameWeight) a b
       = None) →
  calculateCounterweight dimensions targetTotalWeight frameWeight mats
    = Normal r
  ∧ isFeasible r = true
  ∧ map material (materials r) = [m1; m2]
  ∧ ∀ mats',
      take (S (S i)) (sortByPriority mats')
        = take (S (S i)) (sortByPriority mats) →
      calculateCounterweight dimensions targetTotalWeight frameWeight mats'
        = Normal r.
Proof.
  intros Hnet H1 H2 Hb Hmin.
  assert (Hany : ∀ mats',
    take (S (S i)) (sortByPriority mats')
      = take (S (S i)) (sortByPriority mats) →
    calculateCounterweight dimensions targetTotalWeight frameWeight mats'
      = Normal r).
  { intros mats' Htake. unfold calculateCounterweight.
    rewrite Hnet, search_scan.
    assert (Hlk : ∀ k, (k < S (S i))%nat →
      sortByPriority mats' !! k = sortByPriority mats !! k).
    { intros k Hk.
      rewrite <- (lookup_take_lt (sortByPriority mats') (S (S i)) k) by done.
      rewrite Htake. by apply lookup_take_lt. }
    rewrite (pairScan_first _ _ _ i m1 m2 r); try done.
    - rewrite Hlk by lia. done.
    - rewrite Hlk by lia. done.
    - intros j a b Hj. rewrite !Hlk by lia. by apply Hmin. }
  split; [by apply Hany|].
  apply pairBody_Some in Hb as (_ & Hf & _ & _ & a1 & a2 & -> & <- & <-).
  done.
Qed.

(** C8: the call returns a result for every input, it never ends in a
    TypeError; the result is either infeasible with no entry or feasible
    with one or two entries.  With no material at all and a positive net
    weight it returns the diagnosis, computed from [Math.min()], which
    is [Infinity], and [Math.max()], which is [-Infinity]. *)
Theorem calculateCounterweight_total dimensions
    (targetTotalWeight frameWeight : num) mats :
  (∃ r,
     calculateCounterweight dimensions targetTotalWeight frameWeight mats
       = Normal r
     ∧ (isFeasible r = false ∧ materials r = []
        ∨ isFeasible r = true
          ∧ (length (materials r) = 1 ∨ length (materials r) = 2)%nat))
  ∧ calculateCounterweight dimensions targetTotalWeight frameWeight []
    = Normal
        (if targetTotalWeight - frameWeight <= n_zero
         then frameResult (volumeOf dimensions)
                (targetTotalWeight - frameWeight)
         else diagnose (volumeOf dimensions)
                (targetTotalWeight - frameWeight) [])
  ∧ mathMin (map density ([] : list (Material num))) = n_infinity
  ∧ mathMax (map density ([] : list (Material num))) = (- n_infinity).
Proof.
  split; [|split; [|done]].
  - destruct (calculateCounterweight_cases dimensions targetTotalWeight
                frameWeight mats)
      as [[_ E]|[_ [(r & Hp & E)|[(r & _ & Hs & E)|(_ & _ & E)]]]];
      rewrite E; eexists; (split; [done|]).
    + by left.
    + apply pairScan_Some in Hp as (i & m1 & m2 & _ & _ & Hb & _).
      apply pairBody_Some in Hb as (_ & Hf & _ & _ & a1 & a2 & -> & _).
      right. split; [done|by right].
    + apply singleLoop_Some in Hs as (m & _ & Hb).
      apply singleBody_Some in Hb as [_ ->]. right. split; [done|by left].
    + by left.
  - unfold calculateCounterweight.
    by destruct (targetTotalWeight - frameWeight <= n_zero).
Qed.

End ControlFlowClaims.

Section OnHeapClaims.
Context {num : Type} `{Number num}.
Local Open Scope js_scope.

(** C9: a call on the array at [mats] leaves that array, and every other
    array of the heap, as it was.  Either the heap is untouched, or it
    has one more array, at an address that was free, which holds the
    sorted copy.  The result is the one computed from the elements of
    the input array, and holds no array of the heap. *)
Theorem input_array_is_not_mutated (dimensions : Dimensions num)
    (targetTotalWeight frameWeight : num) (mats : loc)
    (h : gmap loc (list (Material num))) (elems : list (Material num)) :
  h !! mats = Some elems →
  let out :=
    calculateCounterweightAt dimensions targetTotalWeight frameWeight
      mats h in
  out.1 = calculateCounterweight dimensions targetTotalWeight frameWeight
            elems
  ∧ out.2 !! mats = Some elems
  ∧ (∀ l, l ∈ dom h → out.2 !! l = h !! l)
  ∧ (out.2 = h
     ∨ ∃ copy : loc, (copy ∉ dom h)
         ∧ out.2 = <[copy := sortByPriority elems]> h).
Proof.
  intros Hm. unfold calculateCounterweightAt, calculateCounterweight.
  destruct (targetTotalWeight - frameWeight <= n_zero); simpl.
  { repeat split; auto. }
  rewrite Hm.
  set (copy := fresh (dom h)).
  assert (Hfresh : copy ∉ dom h) by apply is_fresh.
  assert (Hne : copy ≠ mats).
  { intros ->. apply Hfresh, elem_of_dom. eauto. }
  assert (Hh2 : alter sortByPriority copy (<[copy := elems]> h)
                = <[copy := sortByPriority elems]> h).
  { rewrite alter_insert_eq. done. }
  rewrite Hh2, lookup_insert_eq, lookup_insert_ne, Hm by done. simpl.
  repeat split.
  - by rewrite lookup_insert_ne.
  - intros l Hl. rewrite lookup_insert_ne; [done|]. by intros ->.
  - right. eauto.
Qed.

End OnHeapClaims.

(** ** binary64: the sign of a rounded difference *)

Module Binary64Facts.
Import Binary64.
Local Open Scope Z_scope.

Lemma shr_1_nonneg mrs : nonneg mrs → nonneg (shr_1 mrs).
Proof.
  unfold nonneg. destruct mrs as [m r s]. simpl.
  destruct m as [|[p|p|]|[p|p|]]; simpl; lia.
Qed.

Lemma iter_pos_nonneg p mrs :
  nonneg mrs → nonneg (iter_pos shr_1 p mrs).
Proof.
  revert mrs. induction p as [p IH|p IH|]; intros mrs Hm; simpl.
  - apply IH, IH, shr_1_nonneg, Hm.
  - apply IH, IH, Hm.
  - apply shr_1_nonneg, Hm.
Qed.

Lemma shr_fexp_nonneg m e l :
  0 <= m → nonneg (fst (shr_fexp prec emax m e l)).
Proof.
  intros Hm. unfold shr_fexp, shr.
  assert (H0 : nonneg (shr_record_of_loc m l)).
  { unfold nonneg. destruct l as [|c]; [done | by destruct c]. }
  destruct (fexp prec emax (Zdigits2 m + e) - e); simpl; try done.
  by apply iter_pos_nonneg.
Qed.

Lemma round_nearest_even_nonneg m l :
  0 <= m → 0 <= round_nearest_even m l.
Proof.
  intros Hm. unfold round_nearest_even.
  destruct l as [|c]; [|destruct c]; try destruct (Z.even m); lia.
Qed.

(** Rounding keeps the sign. *)
Lemma binary_round_aux_sign sx m e l :
  0 <= m →
  match binary_round_aux prec emax sx m e l with
  | S754_zero s | S754_infinity s | S754_finite s _ _ => s = sx
  | S754_nan => False
  end.
Proof.
  intros Hm. unfold binary_round_aux.
  pose proof (shr_fexp_nonneg m e l Hm) as H1.
  destruct (shr_fexp prec emax m e l) as [mrs' e'].
  pose proof (shr_fexp_nonneg
    (round_nearest_even (shr_m mrs') (loc_of_shr_record mrs')) e' loc_Exact
    (round_nearest_even_nonneg _ _ H1)) as H2.
  destruct (shr_fexp prec emax _ e' loc_Exact) as [mrs'' e''].
  unfold nonneg in H2. simpl in H2.
  destruct (shr_m mrs''); [done| |lia].
  by destruct (e'' <=? emax - prec).
Qed.

Lemma binary_normalize_nonpos d e :
  d <= 0 →
  SFleb (binary_normalize prec emax d e false) (S754_zero false) = true.
Proof.
  intros Hd. destruct d as [|p|p]; [done|lia|].
  unfold binary_normalize, binary_round.
  destruct (shl_align p e _) as [mz ez].
  pose proof (binary_round_aux_sign true (Zpos mz) ez loc_Exact) as Hs.
  destruct (binary_round_aux prec emax true (Z.pos mz) ez loc_Exact);
    try (rewrite Hs by lia); done.
Qed.

(** *** canonical mantissas *)

Lemma digits2_pos_size p : digits2_pos p = Pos.size p.
Proof. induction p; simpl; congruence. Qed.

Lemma mantissa_bounds (m : positive) :
  2 ^ (Zpos (digits2_pos m) - 1) <= Zpos m < 2 ^ Zpos (digits2_pos m).
Proof.
  rewrite digits2_pos_size. split.
  - pose proof (Pos.size_le m) as Hle.
    assert (2 ^ Zpos (Pos.size m) <= 2 * Zpos m).
    { rewrite <- Pos2Z.inj_pow. change (2 * Zpos m) with (Zpos m~0). lia. }
    replace (Zpos (Pos.size m)) with (Z.succ (Zpos (Pos.size m) - 1))
      in H by lia.
    rewrite Z.pow_succ_r in H by lia. lia.
  - pose proof (Pos.size_gt m) as Hgt.
    rewrite <- Pos2Z.inj_pow. lia.
Qed.

Lemma bounded_canonical m e :
  bounded prec emax m e = true →
  Zpos (digits2_pos m) <= 53 ∧ -1074 <= e
  ∧ (-1074 < e → Zpos (digits2_pos m) = 53).
Proof.
  unfold bounded, canonical_mantissa, fexp, SpecFloat.emin, prec, emax.
  intros [Hc _]%andb_prop. apply Z.eqb_eq in Hc. lia.
Qed.

Lemma iter_xO m d : Zpos (Pos.iter xO m d) = Zpos m * 2 ^ Zpos d.
Proof.
  induction d as [|d IH] using Pos.peano_ind.
  - simpl. lia.
  - rewrite Pos.iter_succ, Pos2Z.inj_xO, IH, Pos2Z.inj_succ.
    rewrite Z.pow_succ_r by lia. lia.
Qed.

Lemma shl_align_fst m e e' :
  e' <= e → Zpos (fst (shl_align m e e')) = Zpos m * 2 ^ (e - e').
Proof.
  intros Hle. unfold shl_align.
  destruct (e' - e) as [|d|d] eqn:E; cbn [fst].
  - replace (e - e') with 0 by lia. rewrite Z.pow_0_r. lia.
  - lia.
  - rewrite iter_xO. f_equal. f_equal. pose proof (Pos2Z.opp_pos d). lia.
Qed.

(** The order of two canonical positive numbers, read on the mantissas
    brought to the smaller exponent. *)
Lemma aligned_le mx ex my ey :
  bounded prec emax mx ex = true → bounded prec emax my ey = true →
  match ex ?= ey with
  | Lt => Lt
  | Gt => Gt
  | Eq => Pos.compare_cont Eq mx my
  end ≠ Gt →
  Zpos (fst (shl_align mx ex (Z.min ex ey)))
  <= Zpos (fst (shl_align my ey (Z.min ex ey))).
Proof.
  intros Hx Hy Hc.
  rewrite (shl_align_fst mx ex), (shl_align_fst my ey)
    by (apply Z.le_min_l || apply Z.le_min_r).
  apply bounded_canonical in Hx as (Hx1 & Hx2 & Hx3).
  apply bounded_canonical in Hy as (Hy1 & Hy2 & Hy3).
  pose proof (mantissa_bounds mx) as Bx.
  pose proof (mantissa_bounds my) as By.
  destruct (Z.compare_spec ex ey) as [->|Hlt|Hgt]; [| |done].
  - rewrite Z.min_id, Z.sub_diag, Z.pow_0_r.
    change (Pos.compare_cont Eq mx my) with (mx ?= my)%positive in Hc.
    change (mx <= my)%positive in Hc. lia.
  - rewrite Z.min_l by lia. rewrite Z.sub_diag, Z.pow_0_r.
    rewrite Hy3 in By by lia.
    assert (2 ^ 1 <= 2 ^ (ey - ex)) by (apply Z.pow_le_mono_r; lia).
    assert (Zpos mx < 2 ^ 53).
    { eapply Z.lt_le_trans; [apply Bx|]. apply Z.pow_le_mono_r; lia. }
    change (2 ^ 1) with 2 in *. change (2 ^ (53 - 1)) with (2 ^ 52) in By.
    assert (2 ^ 53 = 2 * 2 ^ 52) by done.
    nia.
Qed.

(** *** the sign of a difference *)

Lemma SFsub_nonpos (x y : spec_float) :
  valid_binary x = true → valid_binary y = true →
  SFfinite x = true → SFfinite y = true →
  SFleb x y = true →
  SFleb (SF64sub x y) (S754_zero false) = true.
Proof.
  intros Vx Vy Fx Fy Hle.
  destruct x as [sx|sx| |sx mx ex], y as [sy|sy| |sy my ey];
    try discriminate.
  - by destruct sx, sy.
  - by destruct sx, sy.
  - by destruct sx, sy.
  - unfold SF64sub, SFsub. apply binary_normalize_nonpos.
    simpl in Vx, Vy.
    destruct sx, sy; unfold cond_Zopp; try discriminate; try lia.
    + assert (Hc : match ey ?= ex with
                   | Lt => Lt
                   | Gt => Gt
                   | Eq => Pos.compare_cont Eq my mx
                   end ≠ Gt).
      { unfold SFleb, SFcompare in Hle.
        rewrite (Z.compare_antisym ex ey).
        change (Pos.compare_cont Eq my mx) with (my ?= mx)%positive.
        rewrite (Pos.compare_antisym mx my).
        change (Pos.compare_cont Eq mx my) with (mx ?= my)%positive in Hle.
        destruct (ex ?= ey); simpl; try done.
        destruct (mx ?= my)%positive; simpl in *; done. }
      pose proof (aligned_le my ey mx ex Vy Vx Hc) as Hm.
      rewrite (Z.min_comm ey ex) in Hm. lia.
    + assert (Hc : match ex ?= ey with
                   | Lt => Lt
                   | Gt => Gt
                   | Eq => Pos.compare_cont Eq mx my
                   end ≠ Gt).
      { unfold SFleb, SFcompare in Hle.
        destruct (ex ?= ey); try done.
        by destruct (Pos.compare_cont Eq mx my). }
      pose proof (aligned_le mx ex my ey Vx Vy Hc) as Hm. lia.
Qed.

Lemma is_finite_SFfinite (x : float) :
  is_finite x = true → SFfinite (Prim2SF x) = true.
Proof.
  unfold is_finite, is_nan, is_infinity.
  rewrite !eqb_spec, abs_spec.
  change (Prim2SF infinity) with (S754_infinity false).
  destruct (Prim2SF x) as [s|s| |s m e]; simpl; try done.
  by destruct s.
Qed.

(** For finite [x <= y] the rounded difference [x - y] is [<= 0]. *)
Lemma sub_nonpos_of_le (x y : float) :
  is_finite x = true → is_finite y = true →
  (x <=? y)%float = true → (x - y <=? 0)%float = true.
Proof.
  intros Fx Fy. rewrite !leb_spec, sub_spec.
  change (Prim2SF 0) with (S754_zero false).
  apply SFsub_nonpos; auto using Prim2SF_valid, is_finite_SFfinite.
Qed.

End Binary64Facts.

(** ** Exact arithmetic on finite inputs *)

Module ExactFacts.
Import Exact ExactSolver.
Local Open Scope Q_scope.

Lemma Qle_bool_false (x y : Q) : Qle_bool x y = false → y < x.
Proof.
  intros Hf. destruct (Qlt_le_dec y x) as [|Hle]; [done|].
  apply Qle_bool_iff in Hle. congruence.
Qed.

Lemma Qeq_bool_false (x y : Q) : Qeq_bool x y = false → ¬ x == y.
Proof. intros Hf Heq. apply Qeq_bool_iff in Heq. congruence. Qed.

Lemma xdiv_fin (p q : Q) :
  ¬ q == 0 → xdiv (XFin p) (XFin q) = XFin (p / q).
Proof.
  intros Hq. unfold xdiv. destruct (Qeq_bool q 0) eqn:E; [|done].
  apply Qeq_bool_iff in E. done.
Qed.

Lemma volumeOf_lift d :
  volumeOf (liftDimensions d) = XFin (volumeQ d).
Proof. reflexivity. Qed.

Lemma volumeQ_pos d :
  0 < width d → 0 < depth d → 0 < height d → 0 < volumeQ d.
Proof.
  intros Hw Hd Hh. unfold volumeQ.
  assert (0 < width d / 1000) by (apply Qlt_shift_div_l; lra).
  assert (0 < depth d / 1000) by (apply Qlt_shift_div_l; lra).
  assert (0 < height d / 1000) by (apply Qlt_shift_div_l; lra).
  repeat apply Qmult_lt_0_compat; done.
Qed.

Lemma clamp_fin (V v : Q) :
  n_max n_zero (n_min (XFin V) (XFin v)) = XFin (clampQ V v).
Proof.
  unfold clampQ. simpl. unfold xmin, xmax, xlt, xle.
  destruct (Qle_bool V v); simpl; by destruct (Qle_bool _ 0).
Qed.

Lemma clampQ_nonneg_volume (V v : Q) :
  0 <= V →
  (v <= 0 → clampQ V v == 0)
  ∧ (0 <= v → v <= V → clampQ V v == v)
  ∧ (V <= v → clampQ V v == V).
Proof.
  intros HV. unfold clampQ.
  destruct (Qle_bool V v) eqn:E1; simpl.
  - apply Qle_bool_iff in E1.
    destruct (Qle_bool V 0) eqn:E2; simpl;
      [apply Qle_bool_iff in E2|apply Qle_bool_false in E2];
      repeat split; intros; lra.
  - apply Qle_bool_false in E1.
    destruct (Qle_bool v 0) eqn:E2; simpl;
      [apply Qle_bool_iff in E2|apply Qle_bool_false in E2];
      repeat split; intros; lra.
Qed.

Lemma clampQ_neg_volume (V v : Q) : V < 0 → clampQ V v == 0.
Proof.
  intros HV. unfold clampQ.
  destruct (Qle_bool V v) eqn:E1; simpl.
  - destruct (Qle_bool V 0) eqn:E2; simpl; [lra|].
    apply Qle_bool_false in E2. lra.
  - apply Qle_bool_false in E1.
    destruct (Qle_bool v 0) eqn:E2; simpl; [lra|].
    apply Qle_bool_false in E2. lra.
Qed.

(** The body of the pair loop on finite numbers: [v1] solves the two
    equations and lies within the tolerance of [0, V]. *)
Lemma pairBody_exact (V W : Q) (m1 m2 : Material xnum) (d1 d2 : Q) r :
  density m1 = XFin d1 → density m2 = XFin d2 →
  pairBody (XFin V) (XFin W) m1 m2 = Some r →
  ∃ v1 : Q,
    v1 * (d1 - d2) == W - V * d2
    ∧ - volTolQ <= v1 ∧ - volTolQ <= V - v1 ∧ v1 <= V + volTolQ
    ∧ totalVolume r = XFin V
    ∧ netTargetWeight r = XFin W
    ∧ isFeasible r = true
    ∧ materials r =
        [ {| material := m1;
             volume := XFin (clampQ V v1);
             weight := XFin (clampQ V v1 * d1);
             percentage :=
               xmul (xdiv (XFin (clampQ V v1)) (XFin V)) (XFin 100) |};
          {| material := m2;
             volume := XFin (clampQ V (V - v1));
             weight := XFin (clampQ V (V - v1) * d2);
             percentage :=
               xmul (xdiv (XFin (clampQ V (V - v1))) (XFin V))
                 (XFin 100) |} ].
Proof.
  intros Hd1 Hd2. unfold pairBody. rewrite Hd1, Hd2.
  cbn [n_seq n_sub n_mul n_div n_neg n_add n_le n_volTol number_xnum
       xseq xsub xmul xadd xneg].
  destruct (Qeq_bool d1 d2) eqn:Hne; [done|].
  apply Qeq_bool_false in Hne.
  assert (Hz : Qeq_bool (d1 + - d2) 0 = false).
  { destruct (Qeq_bool (d1 + - d2) 0) eqn:E; [|done].
    apply Qeq_bool_iff in E. exfalso. apply Hne. lra. }
  unfold xdiv. rewrite Hz.
  set (v1 := (W + - (V * d2)) / (d1 + - d2)).
  cbn [xadd xneg xle]. rewrite !clamp_fin.
  destruct (Qle_bool (- (1 # 1000000)) v1) eqn:E1; [|done].
  destruct (Qle_bool (- (1 # 1000000)) (V + - v1)) eqn:E2; [|done].
  destruct (Qle_bool v1 (V + (1 # 1000000))) eqn:E3; [|done].
  cbn [andb]. intros [= <-].
  apply Qle_bool_iff in E1, E2, E3.
  exists v1. repeat split; try done.
  unfold v1. field. intros E. apply Hne. lra.
Qed.

Lemma singleBody_exact (V W : Q) (m : Material xnum) (d : Q) r :
  density m = XFin d →
  singleBody (XFin V) (XFin W) m = Some r →
  Qabs (V * d - W) < 1 # 10
  ∧ totalVolume r = XFin V
  ∧ netTargetWeight r = XFin W
  ∧ materials r =
      [ {| material := m; volume := XFin V; weight := XFin (V * d);
           percentage := XFin 100 |} ].
Proof.
  intros Hd Hb. apply singleBody_Some in Hb as [Ht ->].
  rewrite Hd in Ht |- *. repeat split.
  cbn in Ht. apply negb_true_iff, Qle_bool_false in Ht. exact Ht.
Qed.

Lemma lifted_finiteDensity (mats : list (Material Q)) :
  Forall finiteDensity (sortByPriority (map liftMaterial mats)).
Proof.
  rewrite sortByPriority_Permutation. apply Forall_forall.
  intros m Hm. apply list_elem_of_In, in_map_iff in Hm as (m' & <- & _).
  by exists (density m').
Qed.

(** Every feasible result on finite inputs, with the numbers it is made
    of. *)
Lemma feasible_exact dimensions (targetTotalWeight frameWeight : Q)
    (mats : list (Material Q)) r :
  calculateCounterweightExact dimensions targetTotalWeight frameWeight mats
    = Normal r →
  isFeasible r = true →
  let V := volumeQ dimensions in
  let W := targetTotalWeight - frameWeight in
  totalVolume r = XFin V
  ∧ netTargetWeight r = XFin W
  ∧ ((∃ (m1 m2 : Material xnum) (d1 d2 v1 : Q),
        density m1 = XFin d1 ∧ density m2 = XFin d2
        ∧ v1 * (d1 - d2) == W - V * d2
        ∧ - volTolQ <= v1 ∧ - volTolQ <= V - v1 ∧ v1 <= V + volTolQ
        ∧ materials r =
            [ {| material := m1;
                 volume := XFin (clampQ V v1);
                 weight := XFin (clampQ V v1 * d1);
                 percentage :=
                   xmul (xdiv (XFin (clampQ V v1)) (XFin V)) (XFin 100) |};
              {| material := m2;
                 volume := XFin (clampQ V (V - v1));
                 weight := XFin (clampQ V (V - v1) * d2);
                 percentage :=
                   xmul (xdiv (XFin (clampQ V (V - v1))) (XFin V))
                     (XFin 100) |} ])
     ∨ (∃ (m : Material xnum) (d : Q),
          density m = XFin d
          ∧ Qabs (V * d - W) < 1 # 10
          ∧ materials r =
              [ {| material := m; volume := XFin V; weight := XFin (V * d);
                   percentage := XFin 100 |} ])).
Proof.
  intros Hr Hf V W. unfold calculateCounterweightExact in Hr.
  pose proof (lifted_finiteDensity mats) as Hfin.
  rewrite Forall_forall in Hfin.
  destruct (calculateCounterweight_cases (liftDimensions dimensions)
              (XFin targetTotalWeight) (XFin frameWeight)
              (map liftMaterial mats))
    as [[_ E]|[_ [(r' & Hp & E)|[(r' & _ & Hs & E)|(_ & _ & E)]]]];
    rewrite E in Hr; simplify_eq; try done.
  - apply pairScan_Some in Hp as (i & m1 & m2 & H1 & H2 & Hb & _).
    destruct (Hfin m1) as [d1 Hd1]; [by eapply list_elem_of_lookup_2|].
    destruct (Hfin m2) as [d2 Hd2]; [by eapply list_elem_of_lookup_2|].
    rewrite volumeOf_lift in Hb.
    destruct (pairBody_exact _ _ _ _ d1 d2 _ Hd1 Hd2 Hb)
      as (v1 & Hv & L1 & L2 & L3 & HV & HW & _ & Hm).
    repeat split; try done. left. exists m1, m2, d1, d2, v1. done.
  - apply singleLoop_Some in Hs as (m & Hin & Hb).
    destruct (Hfin m) as [d Hd]; [done|].
    rewrite volumeOf_lift in Hb.
    destruct (singleBody_exact _ _ _ d _ Hd Hb) as (Ht & HV & HW & Hm).
    repeat split; try done. right. exists m, d. done.
Qed.

(** *** arithmetic of the clamped volumes *)

Lemma clampQ_error (V v : Q) :
  - volTolQ <= v → v <= V + volTolQ →
  - volTolQ <= clampQ V v - v ∧ clampQ V v - v <= volTolQ.
Proof.
  unfold volTolQ. intros Hlo Hhi.
  destruct (Qlt_le_dec V 0) as [HV|HV].
  - rewrite (clampQ_neg_volume V v HV). lra.
  - destruct (clampQ_nonneg_volume V v HV) as (C1 & C2 & C3).
    destruct (Qlt_le_dec v 0) as [Hv|Hv]; [rewrite C1; lra|].
    destruct (Qlt_le_dec V v) as [Hv'|Hv']; [rewrite C3; lra|].
    rewrite C2; lra.
Qed.

Lemma clampQ_sum (V v1 : Q) :
  0 < V → - volTolQ <= v1 → v1 <= V + volTolQ →
  clampQ V v1 + clampQ V (V - v1) == V.
Proof.
  intros HV Hlo Hhi.
  destruct (clampQ_nonneg_volume V v1) as (A1 & A2 & A3); [lra|].
  destruct (clampQ_nonneg_volume V (V - v1)) as (B1 & B2 & B3); [lra|].
  destruct (Qlt_le_dec v1 0) as [Hv|Hv]; [rewrite A1, B3; lra|].
  destruct (Qlt_le_dec V v1) as [Hv'|Hv']; [rewrite A3, B1; lra|].
  rewrite A2, B2; lra.
Qed.

Lemma weighted_error_bound (e1 e2 d1 d2 eps : Q) :
  - eps <= e1 → e1 <= eps → - eps <= e2 → e2 <= eps →
  Qabs (e1 * d1 + e2 * d2) <= eps * (Qabs d1 + Qabs d2).
Proof.
  intros. apply Qabs_Qle_condition.
  apply (Qabs_case d1); intros; apply (Qabs_case d2); intros;
    split; nra.
Qed.

(** *** the sort on finite priorities *)

Lemma comparePriority_fin (a b : Material xnum) (p q : Q) :
  priority a = XFin p → priority b = XFin q →
  n_lt n_zero (comparePriority a b) = negb (Qle_bool p q).
Proof.
  intros Ha Hb. unfold comparePriority. rewrite Ha, Hb.
  cbn [n_lt n_zero n_sub number_xnum xsub xadd xneg xlt xle].
  destruct (Qle_bool p q) eqn:E1, (Qle_bool (p + - q) 0) eqn:E2; try done.
  - apply Qle_bool_iff in E1. apply Qle_bool_false in E2. lra.
  - apply Qle_bool_iff in E2. apply Qle_bool_false in E1. lra.
Qed.

Lemma priorityLe_trans (a b c : Material xnum) :
  finitePriority b →
  priorityLe a b → priorityLe b c → priorityLe a c.
Proof.
  unfold priorityLe. intros [q Hq]. rewrite Hq.
  destruct (priority a) as [| |p|], (priority c) as [| |r|]; try done.
  cbn [xle]. rewrite !Qle_bool_iff. lra.
Qed.

Lemma insertByPriority_sorted (x : Material xnum) l :
  finitePriority x → Forall finitePriority l →
  StronglySorted priorityLe l →
  StronglySorted priorityLe (insertByPriority x l).
Proof.
  intros [p Hp] Hfin Hs. induction l as [|y l IH]; cbn [insertByPriority].
  - repeat constructor.
  - apply Forall_cons in Hfin as [[q Hq] Hfin].
    apply StronglySorted_inv in Hs as [Hs Hy].
    rewrite (comparePriority_fin x y p q Hp Hq).
    destruct (Qle_bool p q) eqn:E; simpl.
    + assert (Hxy : priorityLe x y).
      { unfold priorityLe. by rewrite Hp, Hq. }
      constructor; [by constructor|].
      constructor; [done|].
      eapply Forall_impl; [exact Hy|].
      intros z Hz. apply (priorityLe_trans x y z); [by exists q|done..].
    + apply Qle_bool_false in E.
      constructor; [by apply IH|].
      rewrite insertByPriority_Permutation. constructor; [|done].
      unfold priorityLe. rewrite Hp, Hq. cbn [xle].
      apply Qle_bool_iff. lra.
Qed.

(** The sorted copy lists the materials in ascending order of priority. *)
Lemma sortByPriority_sorted (l : list (Material xnum)) :
  Forall finitePriority l →
  StronglySorted priorityLe (sortByPriority l).
Proof.
  induction l as [|x l IH]; intros Hfin; simpl; [constructor|].
  apply Forall_cons in Hfin as [Hx Hfin].
  apply insertByPriority_sorted; [done| |by apply IH].
  by rewrite sortByPriority_Permutation.
Qed.

End ExactFacts.

Module FiniteInputs.
Import Binary64 Binary64Facts Exact ExactSolver ExactFacts.
Local Open Scope Q_scope.

(** Unfolds the operators of [xnum] on finite arguments and leaves the
    rational arithmetic inside as it is. *)
Ltac xsimpl :=
  cbn [n_zero n_thousand n_hundred n_volTol n_weightTol n_infinity
       n_add n_sub n_mul n_div n_neg n_abs n_max n_min n_lt n_le n_seq
       number_xnum xadd xsub xmul xneg xabs xle xlt xseq
       within total sumWeights sumVolumes sumPercentages weightTolerance
       foldl map materials material density volume weight percentage
       totalVolume netTargetWeight].



Lemma frame_exceeds_target_exact dimensions
    (targetTotalWeight frameWeight : Q) (mats : list (Material Q)) :
  targetTotalWeight <= frameWeight →
  calculateCounterweightExact dimensions targetTotalWeight frameWeight mats
    = Normal {| totalVolume := XFin (volumeQ dimensions);
                netTargetWeight := XFin (targetTotalWeight - frameWeight);
                materials := [];
                isFeasible := false;
                message := MsgFrameExceedsTarget |}.
Proof.
  intros Hle. unfold calculateCounterweightExact, calculateCounterweight.
  rewrite volumeOf_lift.
  cbn [n_sub n_le n_zero number_xnum xsub xadd xneg xle].
  assert (Qle_bool (targetTotalWeight + - frameWeight) 0 = true) as ->
    by (apply Qle_bool_iff; lra).
  done.
Qed.

Lemma frame_exceeds_target_binary64 (dimensions : Dimensions float)
    (targetTotalWeight frameWeight : float) (mats : list (Material float)) :
  is_finite targetTotalWeight = true → is_finite frameWeight = true →
  (targetTotalWeight <=? frameWeight)%float = true →
  calculateCounterweight dimensions targetTotalWeight frameWeight mats
    = Normal {| totalVolume := volumeOf dimensions;
                netTargetWeight := (targetTotalWeight - frameWeight)%float;
                materials := [];
                isFeasible := false;
                message := MsgFrameExceedsTarget |}.
Proof.
  intros Ft Ff Hle. unfold calculateCounterweight.
  cbn [n_sub n_le n_zero number_float].
  by rewrite (sub_nonpos_of_le _ _ Ft Ff Hle).
Qed.



End FiniteInputs.

(** ** The concrete inputs *)

Module ScenarioClaims.
Import Binary64 Exact ExactSolver ExactFacts Scenarios.


(** C5, counterexample: on the default input (600 x 100 x 1800 mm,
    Beton 2400 and Ocel 7850, target 780, frame 79) the entry of Beton
    is more than 0.01 m3 away from 0.0809 m3 and more than 10 kg away
    from 194.2 kg, and the entry of Ocel is as far from 0.0271 m3 and
    212.7 kg. *)
Lemma default_scenario_differs_from_stated_split :
  ∃ r a1 a2,
    calculateCounterweight defaultDimsF 780%float 79%float [betonF; ocelF]
      = Normal r
    ∧ materials r = [a1; a2]
    ∧ material a1 = betonF ∧ material a2 = ocelF
    ∧ within (volume a1) 0.0809%float 0.01%float = false
    ∧ within (weight a1) 194.2%float 10%float = false
    ∧ within (volume a2) 0.0271%float 0.01%float = false
    ∧ within (weight a2) 212.7%float 10%float = false
    ∧ within (sumWeights r) 406.9%float 10%float = false.
Proof.
  eexists _, _, _. split; [vm_compute; reflexivity|].
  repeat split; vm_compute; reflexivity.
Qed.

(** C5, amended: on the default input the call returns a feasible pair
    result.  In binary64 it is the record below: Beton 0.026936 m3 and
    64.6 kg, Ocel 0.081064 m3 and 636.4 kg.  Without rounding the two
    volumes are within 1e-6 m3 of 0.026936 and 0.081064, the two weights
    within 0.05 kg of 64.6 and 636.4, and the weights add up to 701 kg. *)
Theorem default_scenario :
  calculateCounterweight defaultDimsF 780%float 79%float [betonF; ocelF]
    = Normal
        {| totalVolume := 0.108%float;
           netTargetWeight := 701%float;
           isFeasible := true;
           message := MsgPair "Beton" "Ocel";
           materials := [
             {| material := betonF;
                volume := 0.026935779816513752%float;
                weight := 64.645871559633008%float;
                percentage := 24.940536867142363%float |};
             {| material := ocelF;
                volume := 0.081064220183486246%float;
                weight := 636.35412844036705%float;
                percentage := 75.059463132857644%float |} ] |}
  ∧ ∃ r a1 a2,
      calculateCounterweightExact defaultDims 780 79 [beton; ocel]
        = Normal r
      ∧ isFeasible r = true
      ∧ message r = MsgPair "Beton" "Ocel"
      ∧ netTargetWeight r = XFin 701
      ∧ materials r = [a1; a2]
      ∧ material a1 = liftMaterial beton
      ∧ material a2 = liftMaterial ocel
      ∧ within (volume a1) (XFin 0.026936) n_volTol = true
      ∧ within (weight a1) (XFin 64.6) (XFin 0.05) = true
      ∧ within (volume a2) (XFin 0.081064) n_volTol = true
      ∧ within (weight a2) (XFin 636.4) (XFin 0.05) = true
      ∧ within (sumWeights r) (XFin 701) (XFin 0) = true.
Proof.
  split; [vm_compute; reflexivity|].
  eexists _, _, _. split; [vm_compute; reflexivity|].
  repeat split; vm_compute; reflexivity.
Qed.

(** C10: a cavity of 1 m3, a material of 1000 kg/m3 before one of
    2000 kg/m3, and a net target of 1000 kg.  The first material alone
    passes the test of the single-material loop, and the call returns
    the pair, whose second entry has volume 0, weight 0 and percentage
    0. *)
Theorem pair_preempts_single_material :
  ∃ r1 r a1 a2,
    (density lightF === density heavyF)%js = false
    ∧ singleBody (volumeOf cubeDimsF) (1100 - 100)%float lightF = Some r1
    ∧ length (materials r1) = 1%nat
    ∧ calculateCounterweight cubeDimsF 1100%float 100%float
        [lightF; heavyF] = Normal r
    ∧ isFeasible r = true
    ∧ message r = MsgPair "A" "B"
    ∧ materials r = [a1; a2]
    ∧ a1 = {| material := lightF; volume := 1%float;
              weight := 1000%float; percentage := 100%float |}
    ∧ a2 = {| material := heavyF; volume := 0%float;
              weight := 0%float; percentage := 0%float |}.
Proof.
  eexists _, _, _, _. split; [vm_compute; reflexivity|].
  split; [vm_compute; reflexivity|].
  split; [reflexivity|].
  split; [vm_compute; reflexivity|].
  repeat split; vm_compute; reflexivity.
Qed.

(** In binary64 the result for the default input meets the three bounds,
    the sums and the differences being the rounded ones. *)
Lemma default_scenario_binary64_sums :
  within (sumWeights defaultResultF) (netTargetWeight defaultResultF)
    (weightTolerance defaultResultF) = true
  ∧ within (sumVolumes defaultResultF) (totalVolume defaultResultF)
      n_volTol = true
  ∧ within (sumPercentages defaultResultF) n_hundred 0.0001%float = true.
Proof. repeat split; vm_compute; reflexivity. Qed.

(** Where finiteness matters: [Infinity <= Infinity] holds, their
    difference is NaN, [NaN <= 0] does not hold, and the call goes on to
    the search and ends in the diagnosis. *)
Lemma infinite_weights_reach_the_diagnosis :
  (infinity <=? infinity)%float = true
  ∧ calculateCounterweight defaultDimsF infinity infinity [betonF; ocelF]
    = Normal {| totalVolume := 0.108%float;
                netTargetWeight := nan;
                materials := [];
                isFeasible := false;
                message := MsgFail None None |}.
Proof. split; vm_compute; reflexivity. Qed.

End ScenarioClaims.

(** ** The theorems at concrete inputs *)

Module Witnesses.
Import Binary64 Exact ExactSolver Scenarios FiniteInputs.





Lemma equal_density_pair_is_skipped_witness :
  pairBody (volumeOf defaultDimsF) (780 - 79)%float betonF betonF = None
  ∧ (density betonF === density ocelF)%js = false.
Proof.
  destruct (equal_density_pair_is_skipped defaultDimsF 780%float 79%float
              [betonF; ocelF]) as [Hskip Hpair].
  split.
  - apply Hskip. vm_compute. reflexivity.
  - apply (Hpair defaultResultF betonEntryF ocelEntryF);
      vm_compute; reflexivity.
Defined.

Lemma first_accepted_pair_wins_witness :
  calculateCounterweight defaultDimsF 780%float 79%float
    [ocelF; drevoF; betonF] = Normal defaultResultF
  ∧ isFeasible defaultResultF = true
  ∧ map material (materials defaultResultF) = [betonF; ocelF]
  ∧ ∀ mats',
      take 3 (sortByPriority mats')
        = take 3 (sortByPriority [ocelF; drevoF; betonF]) →
      calculateCounterweight defaultDimsF 780%float 79%float mats'
        = Normal defaultResultF.
Proof.
  apply (first_accepted_pair_wins defaultDimsF 780%float 79%float
           [ocelF; drevoF; betonF] 1 betonF ocelF defaultResultF);
    try (vm_compute; reflexivity).
  intros j a b Hj Ha Hb. destruct j as [|j]; [|lia].
  vm_compute in Ha, Hb. injection Ha as <-. injection Hb as <-.
  vm_compute. reflexivity.
Defined.

Lemma input_array_is_not_mutated_witness :
  let out :=
    calculateCounterweightAt defaultDimsF 780%float 79%float 1%positive
      unsortedHeap in
  out.1 = calculateCounterweight defaultDimsF 780%float 79%float
            [ocelF; betonF]
  ∧ out.2 !! 1%positive = Some [ocelF; betonF]
  ∧ (∀ l, l ∈ dom unsortedHeap → out.2 !! l = unsortedHeap !! l)
  ∧ (out.2 = unsortedHeap
     ∨ ∃ copy : loc, (copy ∉ dom unsortedHeap)
         ∧ out.2 = <[copy := sortByPriority [ocelF; betonF]]> unsortedHeap).
Proof.
  apply (input_array_is_not_mutated defaultDimsF 780%float 79%float
           1%positive unsortedHeap [ocelF; betonF]).
  vm_compute. reflexivity.
Defined.

End Witnesses.

(** ** More of the search, for every implementation of [Number] *)

Section SearchFacts.
Context {num : Type} `{Number num}.
Local Open Scope js_scope.

Implicit Types (netWeight : num) (m : Material num).
Implicit Types (l : list (Material num)) (r : CalculationResult num).

Lemma pairScan_None (volM3 : num) netWeight l :
  pairScan volM3 netWeight l = None ↔
  ∀ i a b, l !! i = Some a → l !! S i = Some b →
    pairBody volM3 netWeight a b = None.
Proof.
  split.
  - induction l as [|x l IH]; [intros _ i a b Ha; by rewrite lookup_nil in Ha|].
    destruct l as [|y rest]; [by intros _ [|i] a b Ha Hb; simplify_eq/=|].
    cbn [pairScan].
    destruct (pairBody volM3 netWeight x y) eqn:Hb; [done|].
    intros Hs [|i] a b Ha Hb'; simplify_eq/=; [done|].
    by apply (IH Hs i a b).
  - intros Hall. destruct (pairScan volM3 netWeight l) as [r|] eqn:Hs;
      [|done].
    apply pairScan_Some in Hs as (i & a & b & Ha & Hb & Hr & _).
    rewrite (Hall i a b Ha Hb) in Hr. done.
Qed.

Lemma singleLoop_first (volM3 : num) netWeight l r :
  singleLoop volM3 netWeight l = Some r →
  ∃ k m, l !! k = Some m ∧ singleBody volM3 netWeight m = Some r
    ∧ ∀ j m', (j < k)%nat → l !! j = Some m' →
        singleBody volM3 netWeight m' = None.
Proof.
  induction l as [|x l IH]; simpl; [done|].
  destruct (singleBody volM3 netWeight x) as [r'|] eqn:Hb.
  - intros [= ->]. exists 0%nat, x. repeat split; try done. intros; lia.
  - intros Hs. destruct (IH Hs) as (k & m & Hk & Hm & Hmin).
    exists (S k), m. repeat split; try done.
    intros [|j] m' Hj Hm'; simplify_eq/=; [done|].
    apply (Hmin j m'); [lia|done].
Qed.

Lemma singleLoop_None (volM3 : num) netWeight l :
  singleLoop volM3 netWeight l = None ↔
  ∀ m, m ∈ l → singleBody volM3 netWeight m = None.
Proof.
  split.
  - induction l as [|x l IH]; simpl; [by intros _ m ?%elem_of_nil|].
    destruct (singleBody volM3 netWeight x) eqn:Hb; [done|].
    intros Hs m [->|Hm]%elem_of_cons; [done|by apply IH].
  - intros Hall. destruct (singleLoop volM3 netWeight l) as [r|] eqn:Hs;
      [|done].
    apply singleLoop_Some in Hs as (m & Hm & Hr).
    rewrite (Hall m Hm) in Hr. done.
Qed.

(** X1: a result with one entry is the first material, in sorted order, whose
    full-cavity weight is within 0.1 kg of the net weight, and only when
    the body of the pair loop returned for no adjacent pair.  The entry
    takes the whole volume: 100 percent. *)
Theorem single_material_is_the_fallback dimensions
    (targetTotalWeight frameWeight : num) mats r a :
  calculateCounterweight dimensions targetTotalWeight frameWeight mats
    = Normal r →
  materials r = [a] →
  let volM3 := volumeOf dimensions in
  let netWeight := targetTotalWeight - frameWeight in
  (∀ i m1 m2,
     sortByPriority mats !! i = Some m1 →
     sortByPriority mats !! S i = Some m2 →
     pairBody volM3 netWeight m1 m2 = None)
  ∧ (∃ k, sortByPriority mats !! k = Some (material a)
       ∧ ∀ j m, (j < k)%nat → sortByPriority mats !! j = Some m →
           (n_abs (volM3 * density m - netWeight) < n_weightTol) = false)
  ∧ (n_abs (volM3 * density (material a) - netWeight) < n_weightTol)
    = true
  ∧ isFeasible r = true
  ∧ message r = MsgSingle (name (material a))
  ∧ volume a = volM3
  ∧ weight a = volM3 * density (material a)
  ∧ percentage a = n_hundred.
Proof.
  intros Hr Hm volM3 netWeight.
  destruct (calculateCounterweight_cases dimensions targetTotalWeight
              frameWeight mats)
    as [[_ E]|[_ [(r' & Hp & E)|[(r' & Hp & Hs & E)|(_ & _ & E)]]]];
    rewrite E in Hr; simplify_eq; try done.
  - apply pairScan_Some in Hp as (i & m1 & m2 & _ & _ & Hb & _).
    apply pairBody_Some in Hb as (_ & _ & _ & _ & b1 & b2 & Hm' & _).
    rewrite Hm in Hm'. done.
  - apply singleLoop_first in Hs as (k & m & Hk & Hb & Hmin).
    apply singleBody_Some in Hb as [Ht ->]. simpl in Hm. simplify_eq.
    split; [by apply pairScan_None|].
    split; [|done].
    exists k. split; [done|]. intros j m' Hj Hm'.
    specialize (Hmin j m' Hj Hm'). unfold singleBody in Hmin.
    fold volM3 netWeight in Hmin |- *.
    by destruct (n_abs (volM3 * density m' - netWeight) < n_weightTol).
Qed.

(** A list whose materials are already in order, each comparator result
    between neighbours not positive, is its own sorted copy. *)
Lemma sortByPriority_ordered l :
  (∀ i a b, l !! i = Some a → l !! S i = Some b →
     (comparePriority a b > n_zero) = false) →
  sortByPriority l = l.
Proof.
  induction l as [|x l IH]; intros Hord; simpl; [done|].
  rewrite IH; [|intros i a b; apply (Hord (S i) a b)].
  destruct l as [|y l]; simpl; [done|].
  by rewrite (Hord 0%nat x y).
Qed.

(** Once the guard on the net weight is passed, the result is feasible as
    soon as one body returns: for some adjacent pair, or for some
    material. *)
Lemma feasible_if_a_body_returns dimensions
    (targetTotalWeight frameWeight : num) mats :
  let volM3 := volumeOf dimensions in
  let netWeight := targetTotalWeight - frameWeight in
  (netWeight <= n_zero) = false →
  (∃ i m1 m2,
     sortByPriority mats !! i = Some m1
     ∧ sortByPriority mats !! S i = Some m2
     ∧ is_Some (pairBody volM3 netWeight m1 m2))
  ∨ (∃ m, m ∈ sortByPriority mats
       ∧ is_Some (singleBody volM3 netWeight m)) →
  ∃ r,
    calculateCounterweight dimensions targetTotalWeight frameWeight mats
      = Normal r
    ∧ isFeasible r = true.
Proof.
  intros volM3 netWeight Hnet Hbody.
  destruct (calculateCounterweight_cases dimensions targetTotalWeight
              frameWeight mats)
    as [[Hnet' _]|[_ [(r & Hp & E)|[(r & _ & Hs & E)|(Hp & Hs & _)]]]].
  - fold netWeight in Hnet'. congruence.
  - exists r. split; [done|].
    apply pairScan_Some in Hp as (? & ? & ? & _ & _ & Hr & _).
    by apply pairBody_Some in Hr as (_ & ? & _).
  - exists r. split; [done|].
    apply singleLoop_Some in Hs as (? & _ & Hr).
    by apply singleBody_Some in Hr as [_ ->].
  - exfalso. fold volM3 netWeight in Hp, Hs.
    destruct Hbody as [(i & m1 & m2 & H1 & H2 & Hsome)|(m & Hm & Hsome)].
    + rewrite pairScan_None in Hp. rewrite (Hp i m1 m2 H1 H2) in Hsome.
      by destruct Hsome.
    + rewrite singleLoop_None in Hs. rewrite (Hs m Hm) in Hsome.
      by destruct Hsome.
Qed.

End SearchFacts.

(** ** More of the search, on finite inputs in exact arithmetic *)

Module ExactSearch.
Import Exact ExactSolver ExactFacts.
Local Open Scope Q_scope.

(** The test of the pair loop, on the solution [v1] of the two
    equations. *)
Lemma pairBody_exact_is_Some (V W : Q) (m1 m2 : Material xnum) (d1 d2 : Q) :
  density m1 = XFin d1 → density m2 = XFin d2 →
  is_Some (pairBody (XFin V) (XFin W) m1 m2) ↔
  ¬ d1 == d2
  ∧ - volTolQ <= (W - V * d2) / (d1 - d2)
  ∧ (W - V * d2) / (d1 - d2) <= V + volTolQ.
Proof.
  intros Hd1 Hd2. unfold pairBody. rewrite Hd1, Hd2.
  cbn [n_seq n_sub n_mul n_div n_neg n_add n_le n_volTol number_xnum
       xseq xsub xmul xadd xneg].
  destruct (Qeq_bool d1 d2) eqn:Hne.
  { apply Qeq_bool_iff in Hne. split; [by intros [? ?]|]. by intros [? _]. }
  apply Qeq_bool_false in Hne.
  assert (Hz : Qeq_bool (d1 + - d2) 0 = false).
  { destruct (Qeq_bool (d1 + - d2) 0) eqn:E; [|done].
    apply Qeq_bool_iff in E. exfalso. apply Hne. lra. }
  unfold xdiv. rewrite Hz. cbn [xadd xneg xle].
  change (W + - (V * d2)) with (W - V * d2).
  change (d1 + - d2) with (d1 - d2).
  set (v1 := (W - V * d2) / (d1 - d2)).
  change (V + - v1) with (V - v1). unfold volTolQ.
  destruct (Qle_bool (- (1 # 1000000)) v1) eqn:E1;
    [apply Qle_bool_iff in E1|apply Qle_bool_false in E1];
  (destruct (Qle_bool (- (1 # 1000000)) (V - v1)) eqn:E2;
    [apply Qle_bool_iff in E2|apply Qle_bool_false in E2]);
  (destruct (Qle_bool v1 (V + (1 # 1000000))) eqn:E3;
    [apply Qle_bool_iff in E3|apply Qle_bool_false in E3]);
  cbn [andb]; split; try (intros [? ?]; done);
    try (intros (_ & ? & ?); exfalso; lra).
Qed.


Lemma singleBody_exact_is_Some (V W : Q) (m : Material xnum) (d : Q) :
  density m = XFin d →
  is_Some (singleBody (XFin V) (XFin W) m) ↔ Qabs (V * d - W) < 1 # 10.
Proof.
  intros Hd. unfold singleBody. rewrite Hd.
  cbn [n_lt n_abs n_sub n_mul n_weightTol number_xnum xlt xabs xsub xadd
       xneg xmul xle].
  change (V * d + - W) with (V * d - W).
  destruct (Qle_bool (1 # 10) (Qabs (V * d - W))) eqn:E; cbn [negb].
  - apply Qle_bool_iff in E. split; [by intros [? ?]|intros; lra].
  - apply Qle_bool_false in E. done.
Qed.

(** Between a material that is too light and one that is too heavy there
    is, somewhere in the list, either a material that fits or two
    neighbours with the net weight strictly between their full-cavity
    weights. *)
Lemma bracket_adjacent (V W : Q) (l : list (Material xnum)) :
  Forall finiteDensity l →
  (∃ a da, a ∈ l ∧ density a = XFin da ∧ V * da <= W) →
  (∃ b db, b ∈ l ∧ density b = XFin db ∧ W <= V * db) →
  (∃ m d, m ∈ l ∧ density m = XFin d ∧ V * d == W)
  ∨ (∃ i x y dx dy,
       l !! i = Some x ∧ l !! S i = Some y
       ∧ density x = XFin dx ∧ density y = XFin dy
       ∧ (V * dx < W ∧ W < V * dy ∨ V * dy < W ∧ W < V * dx)).
Proof.
  induction l as [|x l IH]; intros Hfin Hlo Hhi.
  { destruct Hlo as (a & ? & Ha%elem_of_nil & _). done. }
  apply Forall_cons in Hfin as [[dx Hdx] Hfin].
  destruct (Q_dec (V * dx) W) as [[Hx|Hx]|Hx].
  - (* x is too light *)
    destruct Hhi as (b & db & Hb & Hdb & Hbw).
    apply elem_of_cons in Hb as [->|Hb].
    { rewrite Hdx in Hdb. simplify_eq. lra. }
    destruct l as [|y l]; [by apply elem_of_nil in Hb|].
    pose proof Hfin as Hfin'.
    apply Forall_cons in Hfin' as [[dy Hdy] _].
    destruct (Q_dec (V * dy) W) as [[Hy|Hy]|Hy].
    + destruct IH as [(m & d & Hm & Hd & E)|(i & u & v & du & dv & Hi)];
        [done|exists y, dy; repeat split; [left|done|lra]
        |exists b, db; done| |].
      * left. exists m, d. repeat split; [by right|done..].
      * right. exists (S i), u, v, du, dv. done.
    + right. exists 0%nat, x, y, dx, dy. repeat split; try done. by left.
    + left. exists y, dy. repeat split; [right; left|done..].
  - (* x is too heavy *)
    destruct Hlo as (a & da & Ha & Hda & Haw).
    apply elem_of_cons in Ha as [->|Ha].
    { rewrite Hdx in Hda. simplify_eq. lra. }
    destruct l as [|y l]; [by apply elem_of_nil in Ha|].
    pose proof Hfin as Hfin'.
    apply Forall_cons in Hfin' as [[dy Hdy] _].
    destruct (Q_dec (V * dy) W) as [[Hy|Hy]|Hy].
    + right. exists 0%nat, x, y, dx, dy. repeat split; try done. by right.
    + destruct IH as [(m & d & Hm & Hd & E)|(i & u & v & du & dv & Hi)];
        [done|exists a, da; done
        |exists y, dy; repeat split; [left|done|lra]| |].
      * left. exists m, d. repeat split; [by right|done..].
      * right. exists (S i), u, v, du, dv. done.
    + left. exists y, dy. repeat split; [right; left|done..].
  - left. exists x, dx. repeat split; [left|done..].
Qed.

(** Two neighbours with the net weight strictly between their
    full-cavity weights pass the test of the pair loop, when the volume is
    positive. *)
Lemma pairBody_exact_strictly_between (V W : Q)
    (x y : Material xnum) (dx dy : Q) :
  0 < V → density x = XFin dx → density y = XFin dy →
  V * dx < W ∧ W < V * dy ∨ V * dy < W ∧ W < V * dx →
  is_Some (pairBody (XFin V) (XFin W) x y).
Proof.
  intros HV Hdx Hdy Hb.
  apply (pairBody_exact_is_Some V W x y dx dy Hdx Hdy).
  unfold volTolQ. set (v1 := (W - V * dy) / (dx - dy)).
  assert (Hne : ¬ dx == dy) by (destruct Hb as [[? ?]|[? ?]]; nra).
  assert (Hv : v1 * (dx - dy) == W - V * dy).
  { unfold v1. field. intros E. apply Hne. lra. }
  split; [done|].
  destruct Hb as [[? ?]|[? ?]].
  - assert (dx < dy) by nra. split; nra.
  - assert (dy < dx) by nra. split; nra.
Qed.

(** The search on a net weight that some material does not exceed and
    some material reaches. *)
Lemma between_is_feasible (dimensions : Dimensions Q)
    (targetTotalWeight frameWeight : Q) (mats : list (Material Q)) :
  0 < volumeQ dimensions →
  0 < targetTotalWeight - frameWeight →
  (∃ a, a ∈ mats
     ∧ volumeQ dimensions * density a <= targetTotalWeight - frameWeight) →
  (∃ b, b ∈ mats
     ∧ targetTotalWeight - frameWeight <= volumeQ dimensions * density b) →
  ∃ r,
    calculateCounterweightExact dimensions targetTotalWeight frameWeight
      mats = Normal r
    ∧ isFeasible r = true.
Proof.
  intros HV HW (a & Ha & Hlo) (b & Hb & Hhi).
  set (V := volumeQ dimensions) in *.
  set (W := targetTotalWeight - frameWeight) in *.
  set (l := sortByPriority (map liftMaterial mats)).
  assert (Hin : ∀ m, m ∈ mats → liftMaterial m ∈ l).
  { intros m Hm. unfold l. rewrite sortByPriority_Permutation.
    apply list_elem_of_In, in_map, list_elem_of_In, Hm. }
  destruct (bracket_adjacent V W l) as
    [(m & d & Hm & Hd & E)|(i & x & y & dx & dy & Hx & Hy & Hdx & Hdy & Hb')].
  { apply lifted_finiteDensity. }
  { exists (liftMaterial a), (density a). auto. }
  { exists (liftMaterial b), (density b). auto. }
  all: unfold calculateCounterweightExact;
    apply feasible_if_a_body_returns;
    [cbn [n_le n_sub n_zero number_xnum xsub xadd xneg xle];
     apply not_true_is_false; intros Hnet;
     apply Qle_bool_iff in Hnet; unfold W in HW; lra|];
    rewrite volumeOf_lift; fold l;
    change (XFin targetTotalWeight - XFin frameWeight)%js with (XFin W).
  - right. exists m. split; [done|].
    apply (singleBody_exact_is_Some V W m d Hd).
    assert (E0 : V * d - W == 0) by lra. rewrite E0. done.
  - left. exists i, x, y. repeat split; try done.
    by apply (pairBody_exact_strictly_between V W x y dx dy).
Qed.


(** *** the diagnosis *)

Lemma foldl_xmin_fin (a : Q) (qs : list Q) :
  ∃ q, foldl xmin (XFin a) (map XFin qs) = XFin q
    ∧ q ∈ a :: qs ∧ ∀ q', q' ∈ a :: qs → q <= q'.
Proof.
  revert a. induction qs as [|b qs IH]; intros a; cbn [map foldl].
  - exists a. repeat split; [left|]. intros q' ->%list_elem_of_singleton. lra.
  - cbn [xmin xlt xle].
    destruct (Qle_bool a b) eqn:E; cbn [negb];
      [apply Qle_bool_iff in E; destruct (IH a) as (q & -> & Hin & Hmin)
      |apply Qle_bool_false in E; destruct (IH b) as (q & -> & Hin & Hmin)];
      exists q; (split; [done|]); split.
    + apply elem_of_cons in Hin as [->|Hin]; [left|right; by right].
    + intros q' [->|[->|Hq]%elem_of_cons]%elem_of_cons.
      * apply Hmin. left.
      * apply (Qle_trans _ a); [apply Hmin; left|done].
      * apply Hmin. by right.
    + by right.
    + intros q' [->|Hq]%elem_of_cons; [|by apply Hmin].
      apply (Qle_trans _ b); [apply Hmin; left|lra].
Qed.

Lemma foldl_xmax_fin (a : Q) (qs : list Q) :
  ∃ q, foldl xmax (XFin a) (map XFin qs) = XFin q
    ∧ q ∈ a :: qs ∧ ∀ q', q' ∈ a :: qs → q' <= q.
Proof.
  revert a. induction qs as [|b qs IH]; intros a; cbn [map foldl].
  - exists a. repeat split; [left|]. intros q' ->%list_elem_of_singleton. lra.
  - cbn [xmax xlt xle].
    destruct (Qle_bool b a) eqn:E; cbn [negb];
      [apply Qle_bool_iff in E; destruct (IH a) as (q & -> & Hin & Hmax)
      |apply Qle_bool_false in E; destruct (IH b) as (q & -> & Hin & Hmax)];
      exists q; (split; [done|]); split.
    + apply elem_of_cons in Hin as [->|Hin]; [left|right; by right].
    + intros q' [->|[->|Hq]%elem_of_cons]%elem_of_cons.
      * apply Hmax. left.
      * apply (Qle_trans _ a); [done|apply Hmax; left].
      * apply Hmax. by right.
    + by right.
    + intros q' [->|Hq]%elem_of_cons; [|by apply Hmax].
      apply (Qle_trans _ b); [lra|apply Hmax; left].
Qed.

Lemma density_lift (mats : list (Material Q)) :
  map density (map liftMaterial mats) = map XFin (map density mats).
Proof. induction mats as [|m mats IH]; simpl; [done|]. by rewrite IH. Qed.

(** The lightest and the densest material. *)
Lemma mathMin_lift (mats : list (Material Q)) :
  mats ≠ [] →
  ∃ lo, lo ∈ mats
    ∧ mathMin (map density (map liftMaterial mats)) = XFin (density lo)
    ∧ ∀ m, m ∈ mats → density lo <= density m.
Proof.
  intros Hne. destruct mats as [|m0 mats]; [done|].
  rewrite density_lift. unfold mathMin. cbn [map foldl n_min n_infinity
    number_xnum xmin xlt xle negb].
  destruct (foldl_xmin_fin (density m0) (map density mats))
    as (q & -> & Hin & Hmin).
  change (density m0 :: map density mats) with (map density (m0 :: mats))
    in Hin, Hmin.
  apply list_elem_of_In, in_map_iff in Hin as (lo & <- & Hlo).
  exists lo. split; [by apply list_elem_of_In|]. split; [done|].
  intros m Hm. apply Hmin, list_elem_of_In, in_map, list_elem_of_In, Hm.
Qed.

Lemma mathMax_lift (mats : list (Material Q)) :
  mats ≠ [] →
  ∃ hi, hi ∈ mats
    ∧ mathMax (map density (map liftMaterial mats)) = XFin (density hi)
    ∧ ∀ m, m ∈ mats → density m <= density hi.
Proof.
  intros Hne. destruct mats as [|m0 mats]; [done|].
  rewrite density_lift. unfold mathMax. cbn [map foldl n_max n_infinity
    n_neg number_xnum xneg xmax xlt xle negb].
  destruct (foldl_xmax_fin (density m0) (map density mats))
    as (q & -> & Hin & Hmax).
  change (density m0 :: map density mats) with (map density (m0 :: mats))
    in Hin, Hmax.
  apply list_elem_of_In, in_map_iff in Hin as (hi & <- & Hhi).
  exists hi. split; [by apply list_elem_of_In|]. split; [done|].
  intros m Hm. apply Hmax, list_elem_of_In, in_map, list_elem_of_In, Hm.
Qed.



End ExactSearch.

(** ** The sorted copy, on finite priorities *)

Module ExactSort.
Import Exact ExactSolver ExactFacts.
Local Open Scope Q_scope.

Lemma insertByPriority_filter (p : Q) (x : Material xnum) l :
  finitePriority x → Forall finitePriority l →
  filter (λ m, Is_true (xseq (priority m) (XFin p))) (insertByPriority x l)
  = filter (λ m, Is_true (xseq (priority m) (XFin p))) (x :: l).
Proof.
  intros [px Hpx] Hfin. induction l as [|y l IH]; [done|].
  apply Forall_cons in Hfin as [[py Hpy] Hfin].
  cbn [insertByPriority]. rewrite (comparePriority_fin x y px py Hpx Hpy).
  destruct (Qle_bool px py) eqn:E; cbn [negb]; [done|].
  apply Qle_bool_false in E.
  rewrite (filter_cons _ y), IH, !(filter_cons _ x), (filter_cons _ y)
    by done.
  rewrite Hpx, Hpy. cbn [xseq].
  destruct (decide (Is_true (Qeq_bool px p))) as [Hx|Hx];
    destruct (decide (Is_true (Qeq_bool py p))) as [Hy|Hy]; try done.
  apply Is_true_true, Qeq_bool_iff in Hx, Hy. lra.
Qed.

Lemma lifted_finitePriority (mats : list (Material Q)) :
  Forall finitePriority (map liftMaterial mats).
Proof.
  apply Forall_forall. intros m Hm.
  apply list_elem_of_In, in_map_iff in Hm as (m' & <- & _).
  by exists (priority m').
Qed.

(** X6: the sorted copy holds the materials of the input, in ascending order
    of priority, and materials of equal priority keep the order they had
    in the input: the sort is stable. *)
Theorem sorted_copy_is_a_stable_sort (mats : list (Material Q)) :
  sortByPriority (map liftMaterial mats) ≡ₚ map liftMaterial mats
  ∧ StronglySorted priorityLe (sortByPriority (map liftMaterial mats))
  ∧ ∀ p : Q,
      filter (λ m, Is_true (xseq (priority m) (XFin p)))
        (sortByPriority (map liftMaterial mats))
      = filter (λ m, Is_true (xseq (priority m) (XFin p)))
          (map liftMaterial mats).
Proof.
  split; [apply sortByPriority_Permutation|].
  split; [apply sortByPriority_sorted, lifted_finitePriority|].
  intros p. pose proof (lifted_finitePriority mats) as Hfin.
  induction (map liftMaterial mats) as [|x l IH]; [done|].
  apply Forall_cons in Hfin as [Hx Hfin].
  cbn [sortByPriority]. rewrite insertByPriority_filter; [|done|].
  - rewrite !(filter_cons _ x), IH by done. done.
  - by rewrite sortByPriority_Permutation.
Qed.

End ExactSort.

(** ** The handlers of the form, for every implementation of the numbers *)

Section FormFacts.
Context {num : Type} `{Number num} `{FormNumber num}.
Local Open Scope js_scope.

Implicit Types (m : Material num) (l : list (Material num)).

Lemma withPriority_priority m : withPriority m (priority m) = m.
Proof. by destruct m. Qed.

Lemma renumber_lookup l i :
  renumber l !! i
  = (λ m, withPriority m (n_ofIndex i + n_one)) <$> l !! i.
Proof. unfold renumber. by rewrite list_lookup_imap. Qed.

Lemma length_renumber l : length (renumber l) = length l.
Proof. apply length_imap. Qed.

Lemma wellNumbered_renumber l : wellNumbered (renumber l).
Proof.
  intros i m. rewrite renumber_lookup.
  destruct (l !! i); intros; simplify_eq/=. done.
Qed.

Lemma renumber_wellNumbered l : wellNumbered l → renumber l = l.
Proof.
  intros Hwn. apply list_eq. intros i. rewrite renumber_lookup.
  destruct (l !! i) as [m|] eqn:E; [|done]. simpl.
  by rewrite <- (Hwn i m E), withPriority_priority.
Qed.

Lemma dropPriority_renumber l :
  map dropPriority (renumber l) = map dropPriority l.
Proof.
  apply list_eq. intros i.
  rewrite !list_lookup_fmap, renumber_lookup. by destruct (l !! i).
Qed.

Lemma renumber_dropPriority l l' :
  map dropPriority l = map dropPriority l' → renumber l = renumber l'.
Proof.
  intros E. apply list_eq. intros i. rewrite !renumber_lookup.
  apply (f_equal (.!! i)) in E. rewrite !list_lookup_fmap in E.
  destruct (l !! i) as [m|], (l' !! i) as [m'|]; simplify_eq/=; [|done].
  destruct m, m'. unfold dropPriority in *. simplify_eq/=. done.
Qed.

(** *** removeMaterial *)

Lemma length_filter_split (id : string) l :
  (length (filter (λ m, matId m ≠ id) l)
   + length (filter (λ m, matId m = id) l) = length l)%nat.
Proof.
  induction l as [|x l IH]; [done|].
  rewrite !filter_cons.
  destruct (decide (matId x ≠ id)), (decide (matId x = id));
    simpl; try done; lia.
Qed.

Lemma filter_id_absent (id : string) l :
  id ∉ map matId l → filter (λ m, matId m = id) l = [].
Proof.
  induction l as [|x l IH]; [done|]. cbn [map].
  intros [Hx Hl]%not_elem_of_cons. rewrite filter_cons.
  destruct (decide (matId x = id)); [congruence|by apply IH].
Qed.

Lemma length_filter_id_NoDup (id : string) l :
  NoDup (map matId l) →
  (length (filter (λ m, matId m = id) l) <= 1)%nat.
Proof.
  induction l as [|x l IH]; [simpl; lia|]. cbn [map].
  intros [Hx Hnd]%NoDup_cons. rewrite filter_cons.
  destruct (decide (matId x = id)) as [<-|Hne]; [|by apply IH].
  by rewrite filter_id_absent.
Qed.

(** X7: with two materials or fewer nothing is removed.  With more, every
    material of that id goes (all of them, if several share it), the
    others stay in order with their id, name and density, and the
    priorities become 1, 2, ... *)
Theorem removeMaterial_effect (id : string) l :
  ((length l <= 2)%nat → removeMaterial id l = l)
  ∧ ((2 < length l)%nat →
     map dropPriority (removeMaterial id l)
       = map dropPriority (filter (λ m, matId m ≠ id) l)
     ∧ wellNumbered (removeMaterial id l)
     ∧ Forall (λ m, matId m ≠ id) (removeMaterial id l)
     ∧ (length (removeMaterial id l)
        + length (filter (λ m, matId m = id) l) = length l)%nat).
Proof.
  unfold removeMaterial. split; intros Hlen.
  - by rewrite (proj2 (Nat.leb_le _ _) Hlen).
  - rewrite (proj2 (Nat.leb_gt _ _) Hlen).
    split; [apply dropPriority_renumber|].
    split; [apply wellNumbered_renumber|].
    split.
    + apply Forall_forall. intros m Hm.
      apply list_elem_of_lookup in Hm as [i Hi].
      rewrite renumber_lookup in Hi.
      destruct (filter _ l !! i) as [m'|] eqn:E; simplify_eq/=.
      by apply list_elem_of_lookup_2, list_elem_of_filter in E as [? _].
    + rewrite length_renumber. apply length_filter_split.
Qed.

(** X8: when the ids are distinct, at least two materials remain after any
    removal from two or more. *)
Theorem removeMaterial_keeps_two (id : string) l :
  NoDup (map matId l) → (2 <= length l)%nat →
  (2 <= length (removeMaterial id l))%nat.
Proof.
  intros Hnd Hlen. unfold removeMaterial.
  destruct (length l <=? 2)%nat eqn:E; [done|].
  apply Nat.leb_gt in E. rewrite length_renumber.
  pose proof (length_filter_split id l).
  pose proof (length_filter_id_NoDup id l Hnd). lia.
Qed.

(** *** movePriority *)

Lemma movePriority_Up_S (j : nat) l (a b : Material num) :
  l !! j = Some a → l !! S j = Some b →
  movePriority (S j) Up l
  = Some (renumber (<[j := b]> (<[S j := a]> l))).
Proof.
  intros Ha Hb. unfold movePriority.
  pose proof (lookup_lt_Some _ _ _ Hb) as Hlen.
  replace (Z.of_nat (S j) - 1)%Z with (Z.of_nat j) by lia.
  rewrite (proj2 (Z.ltb_ge _ _)), (proj2 (Z.leb_gt _ _)) by lia.
  cbn [orb]. by rewrite Nat2Z.id, Ha, Hb.
Qed.

Lemma movePriority_Down (j : nat) l (a b : Material num) :
  l !! j = Some a → l !! S j = Some b →
  movePriority j Down l
  = Some (renumber (<[S j := a]> (<[j := b]> l))).
Proof.
  intros Ha Hb. unfold movePriority.
  pose proof (lookup_lt_Some _ _ _ Hb) as Hlen.
  replace (Z.of_nat j + 1)%Z with (Z.of_nat (S j)) by lia.
  rewrite (proj2 (Z.ltb_ge _ _)), (proj2 (Z.leb_gt _ _)) by lia.
  cbn [orb]. by rewrite Nat2Z.id, Ha, Hb.
Qed.

(** X9: moving the material at [j + 1] up and moving the one at [j] down set
    the same list: the two neighbours exchanged, every id, name and
    density kept, and the priorities 1, 2, ... in the new order. *)
Theorem movePriority_exchanges_neighbours (j : nat) l
    (a b : Material num) :
  l !! j = Some a → l !! S j = Some b →
  ∃ r,
    movePriority (S j) Up l = Some r
    ∧ movePriority j Down l = Some r
    ∧ length r = length l
    ∧ wellNumbered r
    ∧ map dropPriority r
      = <[j := dropPriority b]>
          (<[S j := dropPriority a]> (map dropPriority l)).
Proof.
  intros Ha Hb. exists (renumber (<[j := b]> (<[S j := a]> l))).
  split; [by apply movePriority_Up_S|].
  split.
  { rewrite (movePriority_Down j l a b Ha Hb).
    by rewrite list_insert_insert_ne by lia. }
  split; [by rewrite length_renumber, !length_insert|].
  split; [apply wellNumbered_renumber|].
  by rewrite dropPriority_renumber, !list_fmap_insert.
Qed.

(** X10: the first material does not move up, the last does not move down, an
    index past the end moves nothing; and for the index of an element
    the handler always sets a list of materials. *)
Theorem movePriority_at_the_ends (i : nat) (direction : Direction) l :
  movePriority 0 Up l = Some l
  ∧ ((length l <= S i)%nat → movePriority i Down l = Some l)
  ∧ ((length l < i)%nat → movePriority i Up l = Some l)
  ∧ ((i < length l)%nat → is_Some (movePriority i direction l)).
Proof.
  split; [done|]. split; [|split].
  - intros Hlen. unfold movePriority.
    rewrite (proj2 (Z.leb_le (Z.of_nat (length l)) (Z.of_nat i + 1)))
      by lia.
    by rewrite orb_true_r.
  - intros Hlen. unfold movePriority.
    rewrite (proj2 (Z.leb_le (Z.of_nat (length l)) (Z.of_nat i - 1)))
      by lia.
    by rewrite orb_true_r.
  - intros Hlen. unfold movePriority.
    destruct (_ || _) eqn:E; [done|].
    apply orb_false_iff in E as [E1%Z.ltb_ge E2%Z.leb_gt].
    destruct (lookup_lt_is_Some_2 l i Hlen) as [x ->].
    destruct direction.
    + destruct (lookup_lt_is_Some_2 l (Z.to_nat (Z.of_nat i - 1)))
        as [y ->]; [lia|done].
    + destruct (lookup_lt_is_Some_2 l (Z.to_nat (Z.of_nat i + 1)))
        as [y ->]; [lia|done].
Qed.

(** X11: moving a material down and then moving it, from its new place, up
    again gives back the materials in their order, with the priorities
    1, 2, ...: the very list when it was numbered so. *)
Theorem movePriority_down_then_up (j : nat) l (a b : Material num) :
  l !! j = Some a → l !! S j = Some b →
  ∃ r,
    movePriority j Down l = Some r
    ∧ movePriority (S j) Up r = Some (renumber l)
    ∧ (wellNumbered l → movePriority (S j) Up r = Some l).
Proof.
  intros Ha Hb.
  pose proof (lookup_lt_Some _ _ _ Ha) as Hja.
  pose proof (lookup_lt_Some _ _ _ Hb) as Hjb.
  set (r := renumber (<[S j := a]> (<[j := b]> l))).
  assert (Hrj : r !! j = Some (withPriority b (n_ofIndex j + n_one))).
  { unfold r. rewrite renumber_lookup, list_lookup_insert_ne by lia.
    by rewrite list_lookup_insert_eq by lia. }
  assert (HrS : r !! S j
                = Some (withPriority a (n_ofIndex (S j) + n_one))).
  { unfold r. rewrite renumber_lookup.
    by rewrite list_lookup_insert_eq by (rewrite length_insert; lia). }
  assert (Hup : movePriority (S j) Up r = Some (renumber l)).
  { rewrite (movePriority_Up_S j r _ _ Hrj HrS). f_equal.
    apply renumber_dropPriority.
    rewrite !list_fmap_insert. unfold r.
    rewrite dropPriority_renumber, !list_fmap_insert.
    change (dropPriority (withPriority a _)) with (dropPriority a).
    change (dropPriority (withPriority b _)) with (dropPriority b).
    rewrite list_insert_insert_eq.
    rewrite (list_insert_insert_ne _ (S j) j) by lia.
    rewrite list_insert_insert_eq.
    rewrite (list_insert_id _ (S j)).
    - apply list_insert_id. by rewrite list_lookup_fmap, Ha.
    - by rewrite list_lookup_fmap, Hb. }
  exists r. split; [by apply movePriority_Down|]. split; [done|].
  intros Hwn. by rewrite Hup, renumber_wellNumbered.
Qed.

(** *** addMaterial *)

Lemma filter_id_keep (id : string) l :
  id ∉ map matId l → filter (λ m, matId m ≠ id) l = l.
Proof.
  induction l as [|x l IH]; [done|]. cbn [map].
  intros [Hx Hl]%not_elem_of_cons. rewrite filter_cons.
  destruct (decide (matId x ≠ id)) as [|Hn]; [by rewrite IH|].
  destruct Hn. congruence.
Qed.

(** X12: adding a material under a new id and removing that id again gives
    back the list of materials, when it held at least two, numbered
    1, 2, ...  The thickness of 50 stored for the id stays behind. *)
Theorem addMaterial_then_removeMaterial (newId : string) l
    (unitThicknesses : gmap string num) :
  newId ∉ map matId l → (2 <= length l)%nat → wellNumbered l →
  removeMaterial newId (addMaterial newId l unitThicknesses).1 = l
  ∧ (addMaterial newId l unitThicknesses).2 !! newId = Some n_fifty.
Proof.
  intros Hnew Hlen Hwn. split; [|apply lookup_insert_eq].
  unfold addMaterial, removeMaterial. cbn [fst].
  rewrite length_app. cbn [length].
  rewrite (proj2 (Nat.leb_gt _ _)) by lia.
  rewrite filter_app, filter_id_keep by done.
  rewrite filter_cons. cbn [matId].
  destruct (decide (newId ≠ newId)); [done|].
  rewrite filter_nil, app_nil_r. by apply renumber_wellNumbered.
Qed.

(** *** the numbering of the priorities *)

Lemma updateMaterial_lookup (toLowerCase : string → string) (id : string)
    (update : FieldUpdate num) l i :
  updateMaterial toLowerCase id update l !! i
  = (λ m,
       if String.eqb (matId m) id then
         match update with
         | SetDensity val =>
             if String.eqb (toLowerCase (name m)) "ocel"
             then withDensity m n_steel
             else withDensity m val
         | SetId val => withId m val
         | SetName val => withName m val
         | SetPriority val => withPriority m val
         end
       else m) <$> l !! i.
Proof. unfold updateMaterial. apply list_lookup_fmap. Qed.

Lemma addMaterial_wellNumbered (newId : string) l
    (unitThicknesses : gmap string num) :
  wellNumbered l → wellNumbered (addMaterial newId l unitThicknesses).1.
Proof.
  intros Hwn i m. unfold addMaterial. cbn [fst].
  intros [Hi|[Hi Hm]]%lookup_app_Some; [by apply Hwn|].
  apply list_lookup_singleton_Some in Hm as [Hi' <-]. cbn [priority].
  by replace i with (length l) by lia.
Qed.

Lemma removeMaterial_wellNumbered (id : string) l :
  wellNumbered l → wellNumbered (removeMaterial id l).
Proof.
  intros Hwn. unfold removeMaterial.
  destruct (length l <=? 2)%nat; [done|apply wellNumbered_renumber].
Qed.

Lemma movePriority_wellNumbered (i : nat) (direction : Direction) l r :
  wellNumbered l → movePriority i direction l = Some r → wellNumbered r.
Proof.
  intros Hwn. unfold movePriority.
  destruct (_ || _); [by intros [= <-]|].
  destruct (l !! i); [|done].
  match goal with |- context [l !! ?k] => destruct (l !! k) end;
    [|done].
  intros [= <-]. apply wellNumbered_renumber.
Qed.

Lemma updateMaterial_wellNumbered (toLowerCase : string → string)
    (id : string) (update : FieldUpdate num) l :
  (∀ val, update ≠ SetPriority val) →
  wellNumbered l → wellNumbered (updateMaterial toLowerCase id update l).
Proof.
  intros Hup Hwn i m. rewrite updateMaterial_lookup.
  destruct (l !! i) as [m0|] eqn:E; [|done]. cbn [fmap option_fmap
    option_map]. intros [= <-].
  rewrite <- (Hwn i m0 E).
  destruct (String.eqb (matId m0) id); [|done].
  destruct update as [v|v|v|v]; try done.
  + by destruct (String.eqb (toLowerCase (name m0)) "ocel").
  + by destruct (Hup v).
Qed.

(** X13: the handlers keep the priorities 1, 2, ... in the order of the
    list: adding, removing, moving, and editing an id, a name or a
    density. *)
Theorem handlers_keep_the_numbering l :
  wellNumbered l →
  (∀ newId unitThicknesses,
     wellNumbered (addMaterial newId l unitThicknesses).1)
  ∧ (∀ id, wellNumbered (removeMaterial id l))
  ∧ (∀ i direction r,
       movePriority i direction l = Some r → wellNumbered r)
  ∧ (∀ toLowerCase id update,
       (∀ val, update ≠ SetPriority val) →
       wellNumbered (updateMaterial toLowerCase id update l)).
Proof.
  intros Hwn. split; [|split; [|split]].
  - intros. by apply addMaterial_wellNumbered.
  - intros. by apply removeMaterial_wellNumbered.
  - intros i direction r. by apply movePriority_wellNumbered.
  - intros. by apply updateMaterial_wellNumbered.
Qed.

(** *** updateMaterial and the density of steel *)

(** X14: density edits keep steel at 7850; a new name never changes a
    density, also when the new name is that of steel. *)
Theorem steel_lock_and_names (toLowerCase : string → string)
    (id : string) l :
  (∀ val, steelLocked toLowerCase l →
     steelLocked toLowerCase
       (updateMaterial toLowerCase id (SetDensity val) l))
  ∧ (∀ val,
       map density (updateMaterial toLowerCase id (SetName val) l)
       = map density l).
Proof.
  split.
  - intros val Hlock m' Hm' Hname.
    apply list_elem_of_lookup in Hm' as [i Hi].
    rewrite updateMaterial_lookup in Hi.
    destruct (l !! i) as [m|] eqn:E; [|done].
    cbn [fmap option_fmap option_map] in Hi.
    apply list_elem_of_lookup_2 in E.
    destruct (String.eqb (matId m) id).
    + destruct (String.eqb (toLowerCase (name m)) "ocel") eqn:Es.
      * by simplify_eq.
      * simplify_eq. cbn [name withDensity] in Hname.
        apply String.eqb_neq in Es. done.
    + simplify_eq. by apply Hlock.
  - intros val. apply list_eq. intros i.
    rewrite !list_lookup_fmap, updateMaterial_lookup.
    destruct (l !! i) as [m|]; [|done]. cbn [fmap option_fmap option_map].
    by destruct (String.eqb (matId m) id).
Qed.

End FormFacts.

(** ** The form and the solver, on finite numbers in exact arithmetic *)

Module ExactFormFacts.
Import Exact ExactSolver ExactFacts ExactForm.
Local Open Scope Q_scope.

Lemma wellNumbered_ordered (l : list (Material xnum)) :
  wellNumbered l → sortByPriority l = l.
Proof.
  intros Hwn. apply sortByPriority_ordered. intros i a b Ha Hb.
  rewrite (comparePriority_fin a b (inject_Z (Z.of_nat i) + 1)
             (inject_Z (Z.of_nat (S i)) + 1));
    [|by rewrite (Hwn i a Ha)|by rewrite (Hwn (S i) b Hb)].
  apply negb_false_iff, Qle_bool_iff.
  assert (inject_Z (Z.of_nat i) <= inject_Z (Z.of_nat (S i)))
    by (rewrite <- Zle_Qle; lia).
  lra.
Qed.

(** X15: the order in which the solver tries the materials is the order of
    the list of the form: a list numbered 1, 2, ... is its own sorted
    copy, and so is every list that adding, removing or moving a
    material sets. *)
Theorem form_order_is_solver_order (l : list (Material xnum)) :
  wellNumbered l →
  sortByPriority l = l
  ∧ (∀ newId unitThicknesses,
       sortByPriority (addMaterial newId l unitThicknesses).1
       = (addMaterial newId l unitThicknesses).1)
  ∧ (∀ id, sortByPriority (removeMaterial id l) = removeMaterial id l)
  ∧ (∀ i direction r,
       movePriority i direction l = Some r → sortByPriority r = r).
Proof.
  intros Hwn.
  split; [by apply wellNumbered_ordered|].
  split; [intros; by apply wellNumbered_ordered, addMaterial_wellNumbered|].
  split;
    [intros; by apply wellNumbered_ordered, removeMaterial_wellNumbered|].
  intros i direction r Hr.
  by apply wellNumbered_ordered, (movePriority_wellNumbered i direction l).
Qed.


(** *** the segments *)

Lemma areaM2_pos (dims : Dimensions Q) :
  0 < width dims → 0 < depth dims →
  0 < width dims / 1000 * (depth dims / 1000).
Proof.
  intros Hw Hd.
  assert (0 < width dims / 1000) by (apply Qlt_shift_div_l; lra).
  assert (0 < depth dims / 1000) by (apply Qlt_shift_div_l; lra).
  by apply Qmult_lt_0_compat.
Qed.



End ExactFormFacts.

(** ** binary64: order and NaN *)

Module Binary64Order.
Import Binary64 Binary64Facts Binary64Form.

Lemma SFcompare_antisym (x y : spec_float) :
  SFcompare y x = option_map CompOpp (SFcompare x y).
Proof.
  destruct x as [sx|sx| |sx mx ex], y as [sy|sy| |sy my ey];
    try destruct sx; try destruct sy; try done; cbn [SFcompare option_map].
  - rewrite (Z.compare_antisym ex ey).
    destruct (ex ?= ey)%Z; cbn [CompOpp]; try done.
    change (Pos.compare_cont Eq my mx) with (my ?= mx)%positive.
    change (Pos.compare_cont Eq mx my) with (mx ?= my)%positive.
    by rewrite (Pos.compare_antisym mx my).
  - rewrite (Z.compare_antisym ex ey).
    destruct (ex ?= ey)%Z; cbn [CompOpp]; try done.
    change (Pos.compare_cont Eq my mx) with (my ?= mx)%positive.
    change (Pos.compare_cont Eq mx my) with (mx ?= my)%positive.
    by rewrite (Pos.compare_antisym mx my).
Qed.

Lemma SFcompare_refl (x : spec_float) :
  x ≠ S754_nan → SFcompare x x = Some Eq.
Proof.
  destruct x as [s|s| |s m e]; try done; intros _; cbn [SFcompare].
  - by destruct s.
  - rewrite Z.compare_refl.
    change (Pos.compare_cont Eq m m) with (m ?= m)%positive.
    rewrite Pos.compare_refl. by destruct s.
Qed.

Lemma is_nan_spec (x : float) :
  is_nan x = true ↔ Prim2SF x = S754_nan.
Proof.
  unfold is_nan. rewrite eqb_spec. unfold SFeqb. split.
  - destruct (Prim2SF x) eqn:E; try done; intros Hn;
      rewrite SFcompare_refl in Hn; done.
  - by intros ->.
Qed.

Lemma is_nan_false (x : float) :
  is_nan x = false ↔ Prim2SF x ≠ S754_nan.
Proof.
  rewrite <- is_nan_spec. by destruct (is_nan x).
Qed.

Lemma SFcompare_Some (x y : spec_float) :
  x ≠ S754_nan → y ≠ S754_nan → ∃ c, SFcompare x y = Some c.
Proof.
  destruct x as [sx|sx| |sx mx ex], y as [sy|sy| |sy my ey];
    try done; intros _ _; cbn [SFcompare]; eauto.
Qed.

Lemma leb_not_nan (x y : float) :
  (x <=? y)%float = true → is_nan x = false ∧ is_nan y = false.
Proof.
  rewrite leb_spec, !is_nan_false. unfold SFleb.
  destruct (Prim2SF x), (Prim2SF y); try done.
Qed.

Lemma ltb_leb (x y : float) :
  (x <? y)%float = true → (x <=? y)%float = true.
Proof.
  rewrite ltb_spec, leb_spec. unfold SFltb, SFleb.
  by destruct (SFcompare _ _) as [[]|].
Qed.

Lemma not_ltb_leb (x y : float) :
  is_nan x = false → is_nan y = false →
  (x <? y)%float = false → (y <=? x)%float = true.
Proof.
  rewrite !is_nan_false, ltb_spec, leb_spec. intros Hx Hy.
  unfold SFltb, SFleb. rewrite (SFcompare_antisym (Prim2SF x)).
  destruct (SFcompare_Some _ _ Hx Hy) as [c ->]. by destruct c.
Qed.

Lemma leb_refl (x : float) : is_nan x = false → (x <=? x)%float = true.
Proof.
  rewrite is_nan_false, leb_spec. intros Hx. unfold SFleb.
  by rewrite SFcompare_refl.
Qed.

Lemma add_not_nan (x y : float) :
  is_nan (x + y)%float = false → is_nan x = false.
Proof.
  rewrite !is_nan_false, add_spec. intros Hn Hx. apply Hn.
  by rewrite Hx.
Qed.

(** [Math.max(0, Math.min(V, v))] lies between 0 and [V]. *)
Lemma clamp_bounds (V v : float) :
  is_nan V = false → is_nan v = false →
  (0 <=? fmax 0 (fmin V v))%float = true
  ∧ ((0 <=? V)%float = true → (fmax 0 (fmin V v) <=? V)%float = true).
Proof.
  intros HV Hv.
  assert (Hmin : is_nan (fmin V v) = false
                 ∧ (fmin V v <=? V)%float = true).
  { unfold fmin. rewrite HV, Hv.
    destruct (V <? v)%float eqn:E1; [by split; [|apply leb_refl]|].
    destruct (v <? V)%float eqn:E2; [by split; [|apply ltb_leb]|].
    destruct (is_negzero v); split; try done.
    - by apply not_ltb_leb.
    - by apply leb_refl. }
  destruct Hmin as [Hn Hle].
  unfold fmax. change (is_nan 0) with false. rewrite Hn.
  change (is_negzero 0) with false.
  destruct (0 <? fmin V v)%float eqn:E1.
  { split; [by apply ltb_leb|done]. }
  assert (Hz : (if (fmin V v <? 0)%float then 0%float else 0%float)
               = 0%float) by (by destruct (fmin V v <? 0)%float).
  rewrite Hz. done.
Qed.

End Binary64Order.

(** ** binary64: what the solver and the form compute *)

Module Binary64Extras.
Import Binary64 Binary64Facts Binary64Form Binary64Order.

Lemma pairBody_float (V W : float) (m1 m2 : Material float) r :
  pairBody V W m1 m2 = Some r →
  ∃ v1 v2,
    is_nan V = false ∧ is_nan v1 = false ∧ is_nan v2 = false
    ∧ totalVolume r = V
    ∧ map volume (materials r)
      = [fmax 0 (fmin V v1); fmax 0 (fmin V v2)].
Proof.
  unfold pairBody. destruct (density m1 === density m2)%js; [done|].
  cbn [n_sub n_mul n_div n_neg n_add n_le n_volTol n_max n_min n_zero
       number_float].
  set (v1 := ((W - V * density m2) / (density m1 - density m2))%float).
  destruct (_ <=? v1)%float eqn:E1; [|done].
  destruct (_ <=? V - v1)%float eqn:E2; [|done].
  destruct (v1 <=? _)%float eqn:E3; [|done].
  cbn [andb]. intros [= <-]. exists v1, (V - v1)%float.
  apply leb_not_nan in E1 as [_ H1], E2 as [_ H2], E3 as [_ H3].
  apply add_not_nan in H3. done.
Qed.

(** X19: in binary64, the two volumes of a pair result are never negative,
    and when the total volume is not negative neither exceeds it. *)
Theorem pair_volumes_are_clamped (dimensions : Dimensions float)
    (targetTotalWeight frameWeight : float) (mats : list (Material float))
    r a1 a2 :
  calculateCounterweight dimensions targetTotalWeight frameWeight mats
    = Normal r →
  materials r = [a1; a2] →
  (0 <=? volume a1)%float = true
  ∧ (0 <=? volume a2)%float = true
  ∧ ((0 <=? totalVolume r)%float = true →
     (volume a1 <=? totalVolume r)%float = true
     ∧ (volume a2 <=? totalVolume r)%float = true).
Proof.
  intros Hr Hm.
  destruct (calculateCounterweight_cases dimensions targetTotalWeight
              frameWeight mats)
    as [[_ E]|[_ [(r' & Hp & E)|[(r' & _ & Hs & E)|(_ & _ & E)]]]];
    rewrite E in Hr; injection Hr as <-; try done.
  - apply pairScan_Some in Hp as (i & m1 & m2 & _ & _ & Hb & _).
    apply pairBody_float in Hb as (v1 & v2 & HV & H1 & H2 & -> & Hvol).
    rewrite Hm in Hvol. injection Hvol as -> ->.
    destruct (clamp_bounds (volumeOf dimensions) v1 HV H1) as [A1 B1].
    destruct (clamp_bounds (volumeOf dimensions) v2 HV H2) as [A2 B2].
    auto.
  - apply singleLoop_Some in Hs as (m & _ & Hb).
    apply singleBody_Some in Hb as [_ ->]. done.
Qed.

(** X20: in binary64, the value stored for a dimension is never NaN: it is
    the parsed number, or 0 when that is NaN or zero.  The two other
    dimensions are not touched. *)
Theorem updateDim_stores_a_number (key : DimKey) (parsed : float)
    (prev : Dimensions float) :
  is_nan (dimOf key (updateDim key parsed prev)) = false
  ∧ dimOf key (updateDim key parsed prev)
    = (if is_nan parsed || (parsed =? 0)%float then 0%float else parsed)
  ∧ ∀ key', key' ≠ key →
      dimOf key' (updateDim key parsed prev) = dimOf key' prev.
Proof.
  assert (Hv : orElse parsed 0%float
               = (if is_nan parsed || (parsed =? 0)%float
                  then 0%float else parsed)).
  { unfold orElse, truthy, is_nan.
    cbn [n_seq n_zero number_float].
    by destruct (parsed =? parsed)%float, (parsed =? 0)%float. }
  assert (Hn : is_nan (orElse parsed 0%float) = false).
  { rewrite Hv. destruct (is_nan parsed) eqn:E; [done|].
    by destruct (parsed =? 0)%float. }
  split; [by destruct key|]. split; [by destruct key|].
  intros key' Hne. by destruct key, key'.
Qed.


End Binary64Extras.

(** ** The later theorems at concrete inputs *)

Module AtConcreteInputs.
Import Binary64 Exact ExactSolver Binary64Form ExactForm.
Import Scenarios FormScenarios.
Import ExactSearch ExactFormFacts Binary64Extras.

Lemma wellNumbered_defaultMaterialsF : wellNumbered defaultMaterialsF.
Proof.
  intros [|[|i]] m Hm; [| |done]; injection Hm as <-;
    vm_compute; reflexivity.
Qed.

Lemma wellNumbered_defaultMaterialsX : wellNumbered defaultMaterialsX.
Proof.
  intros [|[|i]] m Hm; [| |done]; injection Hm as <-;
    vm_compute; reflexivity.
Qed.

Lemma single_material_is_the_fallback_witness :
  ∃ r a,
    calculateCounterweight cubeDimsF lightOnlyTargetF 0%float
      [lightF; heavyF] = Normal r
    ∧ materials r = [a]
    ∧ material a = lightF
    ∧ pairBody (volumeOf cubeDimsF) (lightOnlyTargetF - 0)%float
        lightF heavyF = None
    ∧ message r = MsgSingle "A"
    ∧ percentage a = 100%float.
Proof.
  assert (Hr : ∃ r a,
    calculateCounterweight cubeDimsF lightOnlyTargetF 0%float
      [lightF; heavyF] = Normal r
    ∧ materials r = [a] ∧ material a = lightF).
  { eexists _, _. split; [vm_compute; reflexivity|].
    split; reflexivity. }
  destruct Hr as (r & a & Hr & Hm & Ha). exists r, a.
  destruct (single_material_is_the_fallback cubeDimsF lightOnlyTargetF
              0%float [lightF; heavyF] r a Hr Hm)
    as (Hpairs & _ & _ & _ & Hmsg & _ & _ & Hpct).
  rewrite Ha in Hmsg.
  split; [exact Hr|]. split; [exact Hm|]. split; [exact Ha|].
  split; [|split; [exact Hmsg|exact Hpct]].
  apply (Hpairs 0%nat lightF heavyF); vm_compute; reflexivity.
Defined.





Lemma removeMaterial_effect_witness :
  removeMaterial "1" defaultMaterialsF = defaultMaterialsF
  ∧ map dropPriority (removeMaterial "1" threeMaterialsF)
    = map dropPriority (filter (λ m, matId m ≠ "1") threeMaterialsF)
  ∧ wellNumbered (removeMaterial "1" threeMaterialsF)
  ∧ Forall (λ m, matId m ≠ "1") (removeMaterial "1" threeMaterialsF)
  ∧ (length (removeMaterial "1" threeMaterialsF)
     + length (filter (λ m, matId m = "1") threeMaterialsF)
     = length threeMaterialsF)%nat.
Proof.
  split.
  - apply (proj1 (removeMaterial_effect "1" defaultMaterialsF)).
    simpl. lia.
  - apply (proj2 (removeMaterial_effect "1" threeMaterialsF)).
    simpl. lia.
Defined.

Lemma removeMaterial_keeps_two_witness :
  (2 <= length (removeMaterial "2" threeMaterialsF))%nat.
Proof.
  apply (removeMaterial_keeps_two "2" threeMaterialsF).
  - apply (bool_decide_unpack _). vm_compute. exact I.
  - simpl. lia.
Defined.

Lemma movePriority_exchanges_neighbours_witness :
  ∃ r,
    movePriority 1 Up threeMaterialsF = Some r
    ∧ movePriority 0 Down threeMaterialsF = Some r
    ∧ length r = length threeMaterialsF
    ∧ wellNumbered r
    ∧ map dropPriority r
      = <[0%nat := dropPriority ocelF]>
          (<[1%nat := dropPriority betonF]>
             (map dropPriority threeMaterialsF)).
Proof.
  apply (movePriority_exchanges_neighbours 0 threeMaterialsF betonF ocelF);
    reflexivity.
Defined.

Lemma movePriority_at_the_ends_witness :
  movePriority 0 Up defaultMaterialsF = Some defaultMaterialsF
  ∧ movePriority 1 Down defaultMaterialsF = Some defaultMaterialsF
  ∧ movePriority 3 Up defaultMaterialsF = Some defaultMaterialsF
  ∧ is_Some (movePriority 1 Up defaultMaterialsF).
Proof.
  destruct (movePriority_at_the_ends 1 Down defaultMaterialsF)
    as (Hfirst & Hlast & _ & _).
  destruct (movePriority_at_the_ends 3 Up defaultMaterialsF)
    as (_ & _ & Hpast & _).
  destruct (movePriority_at_the_ends 1 Up defaultMaterialsF)
    as (_ & _ & _ & Hin).
  split; [exact Hfirst|].
  split; [apply Hlast; simpl; lia|].
  split; [apply Hpast; simpl; lia|].
  apply Hin. simpl. lia.
Defined.

Lemma movePriority_down_then_up_witness :
  ∃ r,
    movePriority 0 Down defaultMaterialsF = Some r
    ∧ movePriority 1 Up r = Some (renumber defaultMaterialsF)
    ∧ (wellNumbered defaultMaterialsF →
       movePriority 1 Up r = Some defaultMaterialsF).
Proof.
  apply (movePriority_down_then_up 0 defaultMaterialsF betonF ocelF);
    reflexivity.
Defined.

Lemma addMaterial_then_removeMaterial_witness :
  removeMaterial "1700000000000"
    (addMaterial "1700000000000" defaultMaterialsF defaultThicknessesF).1
  = defaultMaterialsF
  ∧ (addMaterial "1700000000000" defaultMaterialsF defaultThicknessesF).2
      !! "1700000000000" = Some 50%float.
Proof.
  refine (addMaterial_then_removeMaterial "1700000000000" defaultMaterialsF
            defaultThicknessesF _ _ _).
  - apply (bool_decide_unpack _). vm_compute. exact I.
  - simpl. lia.
  - exact wellNumbered_defaultMaterialsF.
Defined.

Lemma handlers_keep_the_numbering_witness :
  (∀ newId unitThicknesses,
     wellNumbered (addMaterial newId defaultMaterialsF unitThicknesses).1)
  ∧ (∀ id, wellNumbered (removeMaterial id defaultMaterialsF))
  ∧ (∀ i direction r,
       movePriority i direction defaultMaterialsF = Some r →
       wellNumbered r)
  ∧ (∀ toLowerCase id update,
       (∀ val, update ≠ SetPriority val) →
       wellNumbered
         (updateMaterial toLowerCase id update defaultMaterialsF)).
Proof.
  apply (handlers_keep_the_numbering defaultMaterialsF).
  exact wellNumbered_defaultMaterialsF.
Defined.

Lemma steelLocked_defaultMaterialsF :
  steelLocked toLowerAscii defaultMaterialsF.
Proof.
  intros m [->|[->|[]%elem_of_nil]%elem_of_cons]%elem_of_cons;
    vm_compute; [discriminate|reflexivity].
Qed.

Lemma steel_lock_and_names_witness :
  steelLocked toLowerAscii
    (updateMaterial toLowerAscii "2" (SetDensity 1000%float)
       defaultMaterialsF)
  ∧ map density
      (updateMaterial toLowerAscii "1" (SetName "OCEL") defaultMaterialsF)
    = map density defaultMaterialsF.
Proof.
  split.
  - apply (proj1 (steel_lock_and_names toLowerAscii "2" defaultMaterialsF)).
    exact steelLocked_defaultMaterialsF.
  - apply (proj2 (steel_lock_and_names toLowerAscii "1" defaultMaterialsF)).
Defined.

Lemma form_order_is_solver_order_witness :
  sortByPriority defaultMaterialsX = defaultMaterialsX
  ∧ (∀ newId unitThicknesses,
       sortByPriority (addMaterial newId defaultMaterialsX unitThicknesses).1
       = (addMaterial newId defaultMaterialsX unitThicknesses).1)
  ∧ (∀ id, sortByPriority (removeMaterial id defaultMaterialsX)
           = removeMaterial id defaultMaterialsX)
  ∧ (∀ i direction r,
       movePriority i direction defaultMaterialsX = Some r →
       sortByPriority r = r).
Proof.
  apply (form_order_is_solver_order defaultMaterialsX).
  exact wellNumbered_defaultMaterialsX.
Defined.




Lemma pair_volumes_are_clamped_witness :
  (0 <=? volume betonEntryF)%float = true
  ∧ (0 <=? volume ocelEntryF)%float = true
  ∧ ((0 <=? totalVolume defaultResultF)%float = true →
     (volume betonEntryF <=? totalVolume defaultResultF)%float = true
     ∧ (volume ocelEntryF <=? totalVolume defaultResultF)%float = true).
Proof.
  apply (pair_volumes_are_clamped defaultDimsF 780%float 79%float
           [betonF; ocelF] defaultResultF betonEntryF ocelEntryF);
    vm_compute; reflexivity.
Defined.

Lemma updateDim_stores_a_number_witness :
  dimOf Width (updateDim Width nan defaultDimsF) = 0%float
  ∧ dimOf Depth (updateDim Width nan defaultDimsF) = 100%float
  ∧ dimOf Height (updateDim Width nan defaultDimsF) = 1800%float.
Proof.
  destruct (updateDim_stores_a_number Width nan defaultDimsF)
    as (_ & Hv & Hother).
  split; [exact Hv|].
  split; apply Hother; discriminate.
Defined.


End AtConcreteInputs.
